(** * financeApp: the chat session of [app/(tabs)/explore.tsx] and the company
      loader of [app/(tabs)/index.tsx]

    Both screens are React function components.  Their state lives in
    [useState] cells; their logic is a handful of [async] closures that
    suspend at [await] and are resumed by the transport.  The embedding keeps
    that shape:

    - a component's [useState] cells are the fields of a record;
    - the code of an [async] function between two suspension points is a
      computation in a small state-and-exception monad ([Eff]), so
      [try]/[catch]/[finally] and [throw] are written as in the source;
    - what the outside world does (a key press, a fetch that settles, a clock
      reading) is an event, and [step] runs the handler of one event. *)

From Stdlib Require Import List NArith Bool String Ascii Lia PrimFloat.
From Stdlib Require Import DecimalString.
From Stdlib Require DecimalPos.
From stdpp Require Import base list.
Import ListNotations.

Local Open Scope N_scope.
Local Open Scope list_scope.

(** ** JavaScript values used by the two screens *)

Module JS.

(** A JavaScript string is a sequence of UTF-16 code units. *)
Definition jsstring := list N.

(** The literals of the source are ASCII. *)
Definition lit (s : string) : jsstring :=
  map N_of_ascii (list_ascii_of_string s).

Fixpoint jsstring_eqb (a b : jsstring) : bool :=
  match a, b with
  | [], [] => true
  | x :: a', y :: b' => N.eqb x y && jsstring_eqb a' b'
  | _, _ => false
  end.

(** [Number.prototype.toString] on a non-negative integer below 1e21. *)
Definition toString (n : N) : jsstring :=
  lit (NilEmpty.string_of_uint (N.to_uint n)).

(** ECMAScript WhiteSpace and LineTerminator code points, the set
    [String.prototype.trim] strips. *)
Definition isWhiteSpace (c : N) : bool :=
  (9 <=? c) && (c <=? 13)
  || (c =? 0x20) || (c =? 0xA0) || (c =? 0x1680)
  || (0x2000 <=? c) && (c <=? 0x200A)
  || (c =? 0x2028) || (c =? 0x2029) || (c =? 0x202F)
  || (c =? 0x205F) || (c =? 0x3000) || (c =? 0xFEFF).

Fixpoint trimStart (s : jsstring) : jsstring :=
  match s with
  | [] => []
  | c :: r => if isWhiteSpace c then trimStart r else s
  end.

Definition trimEnd (s : jsstring) : jsstring := rev (trimStart (rev s)).

Definition trim (s : jsstring) : jsstring := trimEnd (trimStart s).

(** A string is falsy exactly when it is empty. *)
Definition nonEmpty (s : jsstring) : bool :=
  match s with [] => false | _ :: _ => true end.

(** What a [catch] clause can receive: an [Error] (or a subclass such as
    [TypeError]) with its [message], or any other thrown value. *)
Inductive Thrown : Type :=
| ErrorObject (message : jsstring)
| NotAnError.

(** Outcome of evaluating a statement, or of awaiting a promise. *)
Inductive Completion (A : Type) : Type :=
| Return (a : A)
| Throw (e : Thrown).
Arguments Return {A} a.
Arguments Throw {A} e.

(** Code that reads and writes the cells [S] and may throw.  Writes made
    before a throw stay: a [setState] call is not undone by an exception. *)
Definition Eff (S A : Type) : Type := S -> Completion A * S.

Definition ret {S A} (a : A) : Eff S A := fun s => (Return a, s).

Definition bind {S A B} (c : Eff S A) (k : A -> Eff S B) : Eff S B :=
  fun s =>
    match c s with
    | (Return a, s') => k a s'
    | (Throw e, s') => (Throw e, s')
    end.

Definition throw {S A} (e : Thrown) : Eff S A := fun s => (Throw e, s).

Definition modify {S} (f : S -> S) : Eff S unit := fun s => (Return tt, f s).

(** [await p] where the promise [p] settles with [c]. *)
Definition await {S A} (c : Completion A) : Eff S A := fun s => (c, s).

(** [if (cond) throw e;] *)
Definition throwIf {S} (cond : bool) (e : Thrown) : Eff S unit :=
  if cond then throw e else ret tt.

(** [try { body } catch (e) { handler e }] *)
Definition tryCatch {S A} (body : Eff S A) (handler : Thrown -> Eff S A)
  : Eff S A :=
  fun s =>
    match body s with
    | (Return a, s') => (Return a, s')
    | (Throw e, s') => handler e s'
    end.

(** [try { body } finally { fin }]: [fin] runs on both exits; a throw of
    [fin] replaces the completion of [body]. *)
Definition tryFinally {S A} (body : Eff S A) (fin : Eff S unit) : Eff S A :=
  fun s =>
    match body s with
    | (r, s') =>
        match fin s' with
        | (Return _, s'') => (r, s'')
        | (Throw e, s'') => (Throw e, s'')
        end
    end.

#[local] Set Warnings "-register-all".

(** A parsed JSON document ([JSON.parse], [response.json()]).  Numbers are
    IEEE 754 doubles. *)
Inductive Json : Type :=
| JNull
| JBool (b : bool)
| JNumber (x : float)
| JString (s : jsstring)
| JArray (items : list Json)
| JObject (members : list (jsstring * Json)).

(** A value read from a document: [None] is [undefined]. *)
Definition Value := option Json.

Inductive PropertyKey : Type :=
| Named (name : jsstring)
| Index (i : nat).

Definition keyString (k : PropertyKey) : jsstring :=
  match k with
  | Named name => name
  | Index i => toString (N.of_nat i)
  end.

(** Own property of an object built by [JSON.parse]: when a key is
    repeated the last member wins. *)
Fixpoint member (name : jsstring) (members : list (jsstring * Json))
  : Value :=
  match members with
  | [] => None
  | (k, v) :: rest =>
      match member name rest with
      | Some later => Some later
      | None => if jsstring_eqb name k then Some v else None
      end
  end.

(** [v[k]] for [v] neither [null] nor [undefined].  The named keys read by
    the source are [candidates], [content], [parts] and [text]; no array,
    string, number or boolean has or inherits a property of these names, so
    a named read of such a value is [undefined]. *)
Definition getProperty (v : Json) (k : PropertyKey) : Value :=
  match v with
  | JObject members => member (keyString k) members
  | JArray items =>
      match k with
      | Index i => nth_error items i
      | Named _ => None
      end
  | JString s =>
      match k with
      | Index i => option_map (fun c => JString [c]) (nth_error s i)
      | Named _ => None
      end
  | JNull | JBool _ | JNumber _ => None
  end.

(** [v?.[k]]: [undefined] when [v] is [null] or [undefined]. *)
Definition optionalGet (v : Value) (k : PropertyKey) : Value :=
  match v with
  | None | Some JNull => None
  | Some j => getProperty j k
  end.

(** Truthiness, as tested by [!v]. *)
Definition truthy (v : Value) : bool :=
  match v with
  | None | Some JNull => false
  | Some (JBool b) => b
  | Some (JNumber x) => negb (PrimFloat.is_zero x || PrimFloat.is_nan x)
  | Some (JString s) => nonEmpty s
  | Some (JArray _) | Some (JObject _) => true
  end.

(** The messages of the [TypeError]s the engine raises are its own (they
    differ between Hermes, JavaScriptCore and V8). *)
Record Engine : Type := {
  cannotReadProperty : Value -> PropertyKey -> jsstring;
  notAFunction : Value -> jsstring
}.

(** A fetch [Response], as far as the screens read it.  [json] is what
    awaiting [response.json()] gives. *)
Record Response (Body : Type) : Type := {
  status : N;
  statusText : jsstring;
  json : Completion Body
}.
Arguments status {Body} r.
Arguments statusText {Body} r.
Arguments json {Body} r.

(** [response.ok]: the status is in the range 200-299. *)
Definition ok {Body} (r : Response Body) : bool :=
  (200 <=? status r) && (status r <=? 299).

End JS.

Declare Scope eff_scope.
Delimit Scope eff_scope with eff.
Notation "'let*' x := c 'in' k" := (JS.bind c (fun x => k))
  (at level 10, x name, c at level 100, k at level 200) : eff_scope.
Notation "c ;; k" := (JS.bind c (fun _ => k))
  (at level 100, k at level 200, right associativity) : eff_scope.

(** ** [app/(tabs)/explore.tsx]: the [ChatBot] component *)

Module Explore.
Import JS.
Local Open Scope eff_scope.

(** [sender: 'user' | 'bot'].  The specification calls [bot] the assistant. *)
Inductive Sender : Type := user | bot.

(** [interface ChatMessage]; [id] and [timestamp] are optional fields. *)
Record ChatMessage : Type := {
  sender : Sender;
  message : jsstring;
  id : option jsstring;
  timestamp : option N
}.

(** [interface ApiRequest], the body posted to [API_URL]. *)
Record ApiRequest : Type := {
  request_message : jsstring;
  request_history : list ChatMessage
}.

(** The three [useState] cells of [ChatBot]. *)
Record ChatState : Type := {
  messages : list ChatMessage;
  inputText : jsstring;
  isLoading : bool
}.

Definition setMessages (f : list ChatMessage -> list ChatMessage)
  (st : ChatState) : ChatState :=
  {| messages := f (messages st);
     inputText := inputText st;
     isLoading := isLoading st |}.

Definition setInputText (text : jsstring) (st : ChatState) : ChatState :=
  {| messages := messages st; inputText := text; isLoading := isLoading st |}.

Definition setIsLoading (b : bool) (st : ChatState) : ChatState :=
  {| messages := messages st; inputText := inputText st; isLoading := b |}.

(** [useState([])], [useState('')], [useState(false)]. *)
Definition initialState : ChatState :=
  {| messages := []; inputText := []; isLoading := false |}.

Definition welcomeMessage (now : N) : ChatMessage :=
  {| sender := bot;
     message := lit "How can I help you today? I can answer finance-related questions. For example, you can ask me about stock prices, company specific news, or historical financial data.";
     id := Some (lit "welcome");
     timestamp := Some now |}.

(** The component and the transport it talks to: the cells, the request
    bodies handed to [fetch] so far, how many of these fetches have not
    settled yet, and the rejections [sendMessage] let escape. *)
Record World : Type := {
  ui : ChatState;
  outbox : list ApiRequest;
  inFlight : nat;
  unhandled : list Thrown
}.

(** Mounting: the first render, then the effect with the empty dependency
    list, which runs once and calls [setMessages([welcomeMessage])]. *)
Definition mount (now : N) : World :=
  {| ui := setMessages (fun _ => [welcomeMessage now]) initialState;
     outbox := [];
     inFlight := 0%nat;
     unhandled := [] |}.

(** [messages.map(({ sender, message }) => ({ sender, message }))] *)
Definition historyEntry (m : ChatMessage) : ChatMessage :=
  {| sender := sender m; message := message m;
     id := None; timestamp := None |}.

(** [!inputText.trim() || isLoading], the condition of the early [return]. *)
Definition earlyReturn (st : ChatState) : bool :=
  negb (nonEmpty (trim (inputText st))) || isLoading st.

(** [sendMessage] from its call to the [await fetch(...)].  The closure reads
    [inputText], [messages] and [isLoading] of the render it was created in;
    the component re-renders after every state change, so these are the
    current cells.  [t1] and [t2] are the two readings of [Date.now()].
    The statements of the [try] block that precede the fetch (building the
    request, [JSON.stringify], [console.log]) cannot throw. *)
Definition sendMessage_call (t1 t2 : N) (w : World) : World :=
  let st := ui w in
  if earlyReturn st then w
  else
    let userMessage :=
      {| sender := user;
         message := trim (inputText st);
         id := Some (toString t1);
         timestamp := Some t2 |} in
    let st' :=
      setIsLoading true
        (setInputText []
           (setMessages (fun prevMessages => prevMessages ++ [userMessage])
              st)) in
    let apiRequest :=
      {| request_message := message userMessage;
         request_history := map historyEntry (messages st) |} in
    {| ui := st';
       outbox := outbox w ++ [apiRequest];
       inFlight := S (inFlight w);
       unhandled := unhandled w |}.

Section Resume.

Variable engine : Engine.

(** [v[k]] with a plain (not optional) access. *)
Definition get (v : Value) (k : PropertyKey) : Eff ChatState Value :=
  match v with
  | None | Some JNull => throw (ErrorObject (cannotReadProperty engine v k))
  | Some j => ret (getProperty j k)
  end.

Definition candidates : PropertyKey := Named (lit "candidates").
Definition content : PropertyKey := Named (lit "content").
Definition parts : PropertyKey := Named (lit "parts").
Definition text : PropertyKey := Named (lit "text").

(** [data.candidates?.[0]?.content?.parts?.[0]?.text] *)
Definition optionalText (data : Json) : Eff ChatState Value :=
  let* c := get (Some data) candidates in
  ret (optionalGet
         (optionalGet
            (optionalGet
               (optionalGet (optionalGet c (Index 0)) content)
               parts)
            (Index 0))
         text).

(** [data.candidates[0].content.parts[0].text.trim()] *)
Definition trimmedText (data : Json) : Eff ChatState jsstring :=
  let* c := get (Some data) candidates in
  let* c0 := get c (Index 0) in
  let* co := get c0 content in
  let* ps := get co parts in
  let* p0 := get ps (Index 0) in
  let* t := get p0 text in
  match t with
  | Some (JString s) => ret (trim s)
  | None | Some JNull =>
      throw (ErrorObject (cannotReadProperty engine t (Named (lit "trim"))))
  | Some _ => throw (ErrorObject (notAFunction engine t))
  end.

(** The [try] block from the point where the fetch settles with [fetched]. *)
Definition sendMessage_try (fetched : Completion (Response Json))
  (t3 t4 : N) : Eff ChatState unit :=
  let* response := await fetched in
  throwIf (negb (ok response))
    (ErrorObject (lit "HTTP error! status: " ++ toString (status response))) ;;
  let* data := await (json response) in
  let* t := optionalText data in
  throwIf (negb (truthy t))
    (ErrorObject (lit "Invalid response format from server")) ;;
  let* reply := trimmedText data in
  let botMessage :=
    {| sender := bot;
       message := reply;
       id := Some (toString (t3 + 1));
       timestamp := Some t4 |} in
  modify (setMessages (fun prevMessages => prevMessages ++ [botMessage])).

(** [error instanceof Error ? error.message : 'Unknown error'] *)
Definition reason (error : Thrown) : jsstring :=
  match error with
  | ErrorObject m => m
  | NotAnError => lit "Unknown error"
  end.

(** The [catch] block. *)
Definition sendMessage_catch (t3 t4 : N) (error : Thrown)
  : Eff ChatState unit :=
  let errorMessage :=
    {| sender := bot;
       message := lit "Sorry, I encountered an error: " ++ reason error
                  ++ lit ". Please try again.";
       id := Some (toString (t3 + 1));
       timestamp := Some t4 |} in
  modify (setMessages (fun prevMessages => prevMessages ++ [errorMessage])).

(** [sendMessage] from the settled fetch to its end.  Exactly one of the
    [try] and [catch] blocks reads the clock, twice ([t3], [t4]): in the
    [try] block the reads follow the last expression that can throw. *)
Definition sendMessage_resume (fetched : Completion (Response Json))
  (t3 t4 : N) : Eff ChatState unit :=
  tryFinally
    (tryCatch (sendMessage_try fetched t3 t4) (sendMessage_catch t3 t4))
    (modify (setIsLoading false)).

(** What can happen to the mounted component. *)
Inductive Event : Type :=
| ChangeText (newText : jsstring)
| Send (t1 t2 : N)
| FetchSettled (fetched : Completion (Response Json)) (t3 t4 : N).

(** One event.  [onChangeText={setInputText}]; [onPress={sendMessage}] and
    [onSubmitEditing={sendMessage}]; a fetch can settle only while one is in
    flight, and a completion of [sendMessage] by a throw would be an
    unhandled rejection of the promise it returned. *)
Definition step (ev : Event) (w : World) : World :=
  match ev with
  | ChangeText newText =>
      {| ui := setInputText newText (ui w);
         outbox := outbox w;
         inFlight := inFlight w;
         unhandled := unhandled w |}
  | Send t1 t2 => sendMessage_call t1 t2 w
  | FetchSettled fetched t3 t4 =>
      match inFlight w with
      | O => w
      | S n =>
          match sendMessage_resume fetched t3 t4 (ui w) with
          | (Return _, st) =>
              {| ui := st; outbox := outbox w; inFlight := n;
                 unhandled := unhandled w |}
          | (Throw e, st) =>
              {| ui := st; outbox := outbox w; inFlight := n;
                 unhandled := unhandled w ++ [e] |}
          end
      end
  end.

Definition run (evs : list Event) (w : World) : World :=
  fold_left (fun w ev => step ev w) evs w.

(** The whole of [sendMessage] when nothing else happens while the request
    is in flight. *)
Definition sendMessage (t1 t2 : N) (fetched : Completion (Response Json))
  (t3 t4 : N) (w : World) : World :=
  if earlyReturn (ui w) then w
  else step (FetchSettled fetched t3 t4) (step (Send t1 t2) w).

End Resume.

(** *** Vocabulary of the specification *)

(** The text the specification expects at
    [candidates[0].content.parts[0].text] of a response document; [None]
    when some step of the path is missing. *)
Definition candidateText (data : Json) : Value :=
  optionalGet
    (optionalGet
       (optionalGet
          (optionalGet
             (optionalGet (optionalGet (Some data) candidates) (Index 0))
             content)
          parts)
       (Index 0))
    text.

(** The transport outcomes the specification names as failures: a network
    error (the fetch rejects), a status outside 200-299, and a document
    without the expected text. *)
Inductive FailedFetch : Completion (Response Json) -> Prop :=
| NetworkError (e : Thrown) :
    FailedFetch (Throw e)
| BadStatus (response : Response Json) :
    ok response = false ->
    FailedFetch (Return response)
| MissingText (response : Response Json) (data : Json) :
    ok response = true ->
    json response = Return data ->
    candidateText data = None ->
    FailedFetch (Return response).

(** The wrapper the [catch] block puts around a failure reason. *)
Definition apology (r : jsstring) : jsstring :=
  lit "Sorry, I encountered an error: " ++ r ++ lit ". Please try again.".

(** Code that leaves the cells alone: reads, tests and throws. *)
Definition readOnly {A} (c : Eff ChatState A) : Prop :=
  forall st, snd (c st) = st.

(** Code that either throws, leaving the cells as they were, or appends one
    message of the bot. *)
Definition appendsOrThrows (t3 t4 : N) (c : Eff ChatState unit) : Prop :=
  forall st,
    (exists e, c st = (Throw e, st)) \/
    (exists reply,
       c st =
       (Return tt,
        setMessages
          (fun prevMessages =>
             prevMessages ++
             [{| sender := bot; message := reply;
                 id := Some (toString (t3 + 1)); timestamp := Some t4 |}])
          st)).

(** Events that are not the settling of a fetch. *)
Definition isUserEvent (ev : Event) : Prop :=
  match ev with
  | ChangeText _ | Send _ _ => True
  | FetchSettled _ _ _ => False
  end.

(** *** The controls around [sendMessage] *)

(** [disabled={isLoading || !inputText.trim()}] of the send button. *)
Definition sendDisabled (st : ChatState) : bool :=
  isLoading st || negb (nonEmpty (trim (inputText st))).

(** [editable={!isLoading}] of the text input. *)
Definition editable (st : ChatState) : bool := negb (isLoading st).

(** [keyExtractor={item => item.id || item.message}] of the message list. *)
Definition keyExtractor (item : ChatMessage) : jsstring :=
  match id item with
  | Some (c :: r) => c :: r
  | Some [] | None => message item
  end.

(** [scrollToBottom]: whether it calls [scrollToEnd], given whether
    [flatListRef.current] is set. *)
Definition scrollToBottom (attached : bool) (st : ChatState) : bool :=
  attached && negb (length (messages st) =? 0)%nat.

(** *** Shapes of a session *)

(** A string that does not begin with white space. *)
Definition startsClean (s : jsstring) : Prop :=
  match s with
  | [] => True
  | c :: _ => isWhiteSpace c = false
  end.

(** [n] completed exchanges, as a list of senders. *)
Definition turns (n : nat) : list Sender := concat (repeat [user; bot] n).

(** The requests a transcript stands for: one per message of the user,
    carrying the text of that message and, as history, all the messages
    before it.  [before] is the part of the transcript already passed. *)
Fixpoint requestsFrom (before rest : list ChatMessage) : list ApiRequest :=
  match rest with
  | [] => []
  | m :: rest' =>
      match sender m with
      | user =>
          [{| request_message := message m;
              request_history := map historyEntry before |}]
      | bot => []
      end ++ requestsFrom (before ++ [m]) rest'
  end.

(** The message [sendMessage] appends once its fetch has settled: the
    [botMessage] of the [try] block or the [errorMessage] of the [catch]
    block, which differ in their text only. *)
Definition answer (body : jsstring) (t3 t4 : N) : ChatMessage :=
  {| sender := bot;
     message := body;
     id := Some (toString (t3 + 1));
     timestamp := Some t4 |}.

(** What holds of every session that started with [mount]. *)
Record SessionInvariant (w : World) : Prop := {
  inv_unhandled : unhandled w = [];
  inv_inFlight : inFlight w = if isLoading (ui w) then 1%nat else 0%nat;
  inv_outbox : outbox w = requestsFrom [] (messages (ui w));
  inv_senders :
    exists n,
      map sender (messages (ui w)) =
      bot :: turns n ++ (if isLoading (ui w) then [user] else []);
  inv_user :
    Forall
      (fun m => sender m = user ->
                message m <> [] /\ trim (message m) = message m)
      (messages (ui w));
  inv_id :
    Forall (fun m => exists c r, id m = Some (c :: r)) (messages (ui w))
}.

End Explore.

(** ** [app/(tabs)/index.tsx]: the [App] component *)

Module Index.
Import JS.
Local Open Scope eff_scope.

(** [type Company = typeof COMPANIES[number]] *)
Inductive Company : Type :=
| AAPL | GOOG | MSFT | AMZN | META | TSLA | NFLX | ADBE | INTC | DELL.

Definition COMPANIES : list Company :=
  [AAPL; GOOG; MSFT; AMZN; META; TSLA; NFLX; ADBE; INTC; DELL].

(** The string a [Company] is. *)
Definition symbol (c : Company) : jsstring :=
  match c with
  | AAPL => lit "AAPL" | GOOG => lit "GOOG" | MSFT => lit "MSFT"
  | AMZN => lit "AMZN" | META => lit "META" | TSLA => lit "TSLA"
  | NFLX => lit "NFLX" | ADBE => lit "ADBE" | INTC => lit "INTC"
  | DELL => lit "DELL"
  end.

(** Comparison of two dependency values ([Object.is] on strings). *)
Definition sameCompany (a b : Company) : bool :=
  jsstring_eqb (symbol a) (symbol b).

Definition API_BASE_URL : jsstring := lit "https://hcibackend.onrender.com".

(** [interface CompanyDetails] *)
Record CompanyDetails : Type := {
  industry : jsstring;
  currentPrice : jsstring;
  address1 : jsstring;
  city : jsstring;
  state : jsstring;
  country : jsstring;
  zip : jsstring;
  totalRevenue : jsstring;
  marketCap : jsstring;
  website : jsstring;
  trailingPE : jsstring;
  dividendYield : jsstring;
  beta : jsstring
}.

(** The six [useState] cells of [App]. *)
Record AppState : Type := {
  selectedCompany : Company;
  companyDetails : option CompanyDetails;
  companyImage : option jsstring;
  isDropdownVisible : bool;
  isLoading : bool;
  error : option jsstring
}.

Definition setSelectedCompany (c : Company) (st : AppState) : AppState :=
  {| selectedCompany := c;
     companyDetails := companyDetails st;
     companyImage := companyImage st;
     isDropdownVisible := isDropdownVisible st;
     isLoading := isLoading st;
     error := error st |}.

Definition setCompanyDetails (d : option CompanyDetails) (st : AppState)
  : AppState :=
  {| selectedCompany := selectedCompany st;
     companyDetails := d;
     companyImage := companyImage st;
     isDropdownVisible := isDropdownVisible st;
     isLoading := isLoading st;
     error := error st |}.

Definition setCompanyImage (u : option jsstring) (st : AppState) : AppState :=
  {| selectedCompany := selectedCompany st;
     companyDetails := companyDetails st;
     companyImage := u;
     isDropdownVisible := isDropdownVisible st;
     isLoading := isLoading st;
     error := error st |}.

Definition setIsDropdownVisible (b : bool) (st : AppState) : AppState :=
  {| selectedCompany := selectedCompany st;
     companyDetails := companyDetails st;
     companyImage := companyImage st;
     isDropdownVisible := b;
     isLoading := isLoading st;
     error := error st |}.

Definition setIsLoading (b : bool) (st : AppState) : AppState :=
  {| selectedCompany := selectedCompany st;
     companyDetails := companyDetails st;
     companyImage := companyImage st;
     isDropdownVisible := isDropdownVisible st;
     isLoading := b;
     error := error st |}.

Definition setError (e : option jsstring) (st : AppState) : AppState :=
  {| selectedCompany := selectedCompany st;
     companyDetails := companyDetails st;
     companyImage := companyImage st;
     isDropdownVisible := isDropdownVisible st;
     isLoading := isLoading st;
     error := e |}.

(** [useState(COMPANIES[0])], [useState(null)], [useState(null)],
    [useState(false)], [useState(true)], [useState(null)]. *)
Definition initialState : AppState :=
  {| selectedCompany := hd AAPL COMPANIES;
     companyDetails := None;
     companyImage := None;
     isDropdownVisible := false;
     isLoading := true;
     error := None |}.

(** What the component draws under the dropdown: [isLoading ? ... : error ?
    ... : ...], each operand tested for truthiness. *)
Inductive View : Type :=
| LoadingSpinner
| ErrorText (e : jsstring)
| Content (details : option CompanyDetails) (image : option jsstring).

Definition truthyString (s : option jsstring) : option jsstring :=
  match s with
  | Some (c :: r) => Some (c :: r)
  | Some [] | None => None
  end.

Definition render (st : AppState) : View :=
  if isLoading st then LoadingSpinner
  else
    match truthyString (error st) with
    | Some e => ErrorText e
    | None => Content (companyDetails st) (truthyString (companyImage st))
    end.

(** A call into the transport. *)
Inductive Request : Type :=
| Fetch (url : jsstring)
| DownloadAsync (imageUrl fileName : jsstring).

Inductive PromiseState : Type := pending | fulfilled | rejected.

Definition settledAs {A} (c : Completion A) : PromiseState :=
  match c with
  | Return _ => fulfilled
  | Throw _ => rejected
  end.

(** One call of [loadCompanyData] that has reached its [await]: the
    [selectedCompany] its closures captured, the promises returned by
    [fetchCompanyDetails()] and [fetchCompanyImage()], and the promise of
    [Promise.all] over the two. *)
Record Load : Type := {
  company : Company;
  details : PromiseState;
  image : PromiseState;
  all : PromiseState
}.

(** The component and its surroundings: the cells, the calls of
    [loadCompanyData] in the order they were made, the requests issued so
    far, and the [Alert.alert] dialogs raised. *)
Record World : Type := {
  app : AppState;
  loads : list Load;
  transport : list Request;
  alerts : list (jsstring * jsstring)
}.

Definition onApp (f : AppState -> AppState) (w : World) : World :=
  {| app := f (app w); loads := loads w;
     transport := transport w; alerts := alerts w |}.

Definition setLoad (i : nat) (l : Load) (w : World) : World :=
  {| app := app w; loads := <[i := l]> (loads w);
     transport := transport w; alerts := alerts w |}.

(** [Alert.alert(title, message)] *)
Definition alert (title message : jsstring) : Eff World unit :=
  modify (fun w =>
    {| app := app w; loads := loads w; transport := transport w;
       alerts := alerts w ++ [(title, message)] |}).

Section Device.

(** [FileSystem.cacheDirectory], as the template literal prints it. *)
Variable cacheDirectory : jsstring.

(** [loadCompanyData] from its call to the [await Promise.all([...])]: the
    two [set] calls, then [fetchCompanyDetails()] and [fetchCompanyImage()]
    each run to their first [await], issuing their request for the
    [selectedCompany] of the render the closures belong to. *)
Definition loadCompanyData_call (w : World) : World :=
  let c := selectedCompany (app w) in
  {| app := setError None (setIsLoading true (app w));
     loads := loads w ++
       [{| company := c; details := pending; image := pending;
           all := pending |}];
     transport := transport w ++
       [Fetch (API_BASE_URL ++ lit "/stockDetails/" ++ symbol c);
        DownloadAsync (API_BASE_URL ++ lit "/stockGraph/" ++ symbol c)
          (cacheDirectory ++ symbol c ++ lit ".jpg")];
     alerts := alerts w |}.

(** [fetchCompanyDetails] from the settled [fetch]. *)
Definition fetchCompanyDetails_resume
  (fetched : Completion (Response CompanyDetails)) : Eff World unit :=
  let* response := await fetched in
  throwIf (negb (ok response))
    (ErrorObject
       (lit "Failed to fetch company details: " ++ statusText response)) ;;
  let* data := await (json response) in
  modify (onApp (setCompanyDetails (Some data))).

(** [fetchCompanyImage] from the settled [downloadAsync]; [downloaded] is the
    [uri] of its result. *)
Definition fetchCompanyImage_resume (downloaded : Completion jsstring)
  : Eff World unit :=
  let* uri := await downloaded in
  modify (onApp (setCompanyImage (Some uri))).

(** [err instanceof Error ? err.message : 'An error occurred'] *)
Definition errorMessage (err : Thrown) : jsstring :=
  match err with
  | ErrorObject m => m
  | NotAnError => lit "An error occurred"
  end.

(** [loadCompanyData] from the settled [Promise.all] to its end. *)
Definition loadCompanyData_resume (joined : Completion unit)
  : Eff World unit :=
  tryFinally
    (tryCatch (await joined)
       (fun err =>
          modify (onApp (setError (Some (errorMessage err)))) ;;
          alert (lit "Error") (errorMessage err)))
    (modify (onApp (setIsLoading false))).

(** [Promise.all] after one of its two inputs settled with [r], [l] being the
    load with that input already recorded: it rejects with the first
    rejection, fulfils once both inputs have, and is settled at most once.
    The continuation of [loadCompanyData] runs in the same turn; the effect
    that called [loadCompanyData] drops the promise it returned. *)
Definition promiseAll (i : nat) (l : Load) (r : Completion unit) (w : World)
  : World :=
  let settleAll (joined : Completion unit) :=
    snd (loadCompanyData_resume joined
           (setLoad i
              {| company := company l; details := details l;
                 image := image l; all := settledAs joined |} w)) in
  match all l with
  | pending =>
      match r with
      | Throw e => settleAll (Throw e)
      | Return _ =>
          match details l, image l with
          | fulfilled, fulfilled => settleAll (Return tt)
          | _, _ => setLoad i l w
          end
      end
  | fulfilled | rejected => setLoad i l w
  end.

(** [handleCompanySelect] *)
Definition handleCompanySelect (c : Company) (st : AppState) : AppState :=
  setIsDropdownVisible false (setSelectedCompany c st).

(** [useEffect(() => { loadCompanyData(); }, [selectedCompany])] after a
    render: the effect runs again only if the dependency differs from its
    value [before], at the previous render. *)
Definition useEffect_selectedCompany (before : Company) (w : World) : World :=
  if sameCompany before (selectedCompany (app w)) then w
  else loadCompanyData_call w.

(** Mounting: the first render, after which the effect runs. *)
Definition mount : World :=
  loadCompanyData_call
    {| app := initialState; loads := []; transport := []; alerts := [] |}.

(** What can happen to the mounted component.  A settling request names the
    call of [loadCompanyData] it belongs to by its position in [loads]. *)
Inductive Event : Type :=
| Select (c : Company)
| ShowDropdown
| CloseDropdown
| DetailsSettled (i : nat) (fetched : Completion (Response CompanyDetails))
| ImageSettled (i : nat) (downloaded : Completion jsstring).

Definition step (ev : Event) (w : World) : World :=
  match ev with
  | Select c =>
      useEffect_selectedCompany (selectedCompany (app w))
        (onApp (handleCompanySelect c) w)
  | ShowDropdown => onApp (setIsDropdownVisible true) w
  | CloseDropdown => onApp (setIsDropdownVisible false) w
  | DetailsSettled i fetched =>
      match loads w !! i with
      | Some l =>
          match details l with
          | pending =>
              let (r, w') := fetchCompanyDetails_resume fetched w in
              promiseAll i
                {| company := company l; details := settledAs r;
                   image := image l; all := all l |} r w'
          | fulfilled | rejected => w
          end
      | None => w
      end
  | ImageSettled i downloaded =>
      match loads w !! i with
      | Some l =>
          match image l with
          | pending =>
              let (r, w') := fetchCompanyImage_resume downloaded w in
              promiseAll i
                {| company := company l; details := details l;
                   image := settledAs r; all := all l |} r w'
          | fulfilled | rejected => w
          end
      | None => w
      end
  end.

Definition run (evs : list Event) (w : World) : World :=
  fold_left (fun w ev => step ev w) evs w.

(** [select(entity)] of the specification: the dropdown's [onSelect]. *)
Definition select (c : Company) (w : World) : World := step (Select c) w.

End Device.

(** *** Vocabulary of the specification *)

(** [Rejects ev i l e]: the event [ev] makes a still pending sub-fetch of the
    load [l], the [i]-th call of [loadCompanyData], reject with [e].  The
    details fetch rejects on a network error, on a status outside 200-299
    and on a body that is not JSON; the image fetch when the download
    rejects. *)
Inductive Rejects : Event -> nat -> Load -> Thrown -> Prop :=
| DetailsNetworkError i l e :
    details l = pending ->
    Rejects (DetailsSettled i (Throw e)) i l e
| DetailsBadStatus i l response :
    details l = pending ->
    ok response = false ->
    Rejects (DetailsSettled i (Return response)) i l
      (ErrorObject
         (lit "Failed to fetch company details: " ++ statusText response))
| DetailsBadBody i l response e :
    details l = pending ->
    ok response = true ->
    json response = Throw e ->
    Rejects (DetailsSettled i (Return response)) i l e
| ImageDownloadError i l e :
    image l = pending ->
    Rejects (ImageSettled i (Throw e)) i l e.

(** The companies of the calls of [loadCompanyData] made so far. *)
Definition companies (w : World) : list Company := map company (loads w).

(** The rows of [CompanyDropdown]: each [item] of [COMPANIES] with whether
    it gets [styles.selectedItem], that is [item === selectedCompany]. *)
Definition dropdownRows (selected : Company) : list (Company * bool) :=
  map (fun item => (item, sameCompany item selected)) COMPANIES.

(** [keyExtractor={(item) => item}] over the rows. *)
Definition dropdownKeys : list jsstring := map symbol COMPANIES.

(** The two requests of one load of the company [c]. *)
Definition requestsFor (cacheDirectory : jsstring) (c : Company)
  : list Request :=
  [Fetch (API_BASE_URL ++ lit "/stockDetails/" ++ symbol c);
   DownloadAsync (API_BASE_URL ++ lit "/stockGraph/" ++ symbol c)
     (cacheDirectory ++ symbol c ++ lit ".jpg")].

End Index.

(** ** Sample data *)

Module Sample.
Import JS.

Definition hermes : Engine :=
  {| cannotReadProperty := fun _ _ => lit "Cannot read property of null";
     notAFunction := fun _ => lit "undefined is not a function" |}.

Definition cache : jsstring := lit "file:///data/cache/".

(** [{candidates: [{content: {parts: [{text: t}]}}]}] *)
Definition reply (t : jsstring) : Json :=
  JObject
    [(lit "candidates",
      JArray
        [JObject
           [(lit "content",
             JObject
               [(lit "parts", JArray [JObject [(lit "text", JString t)]])])]])].

Definition respond {Body} (code : N) (phrase : string) (body : Body)
  : Completion (Response Body) :=
  Return {| status := code; statusText := lit phrase; json := Return body |}.

(** A chat session with a question typed in. *)
Definition asking : Explore.World :=
  Explore.step hermes (Explore.ChangeText (lit "  What is AAPL's price? "))
    (Explore.mount 1700000000000).

(** The same session with the request in flight. *)
Definition waiting : Explore.World :=
  Explore.step hermes (Explore.Send 1700000000100 1700000000101) asking.

Definition appleDetails : Index.CompanyDetails :=
  {| Index.industry := lit "Consumer Electronics";
     Index.currentPrice := lit "120.50";
     Index.address1 := lit "One Apple Park Way";
     Index.city := lit "Cupertino";
     Index.state := lit "CA";
     Index.country := lit "United States";
     Index.zip := lit "95014";
     Index.totalRevenue := lit "394328006656";
     Index.marketCap := lit "2000000000000";
     Index.website := lit "https://www.apple.com";
     Index.trailingPE := lit "30.1";
     Index.dividendYield := lit "0.005";
     Index.beta := lit "1.2" |}.

Definition appleChart : jsstring := lit "file:///data/cache/AAPL.jpg".

(** The company screen after the first load, of AAPL, succeeded. *)
Definition appleLoaded : Index.World :=
  Index.run cache
    [Index.DetailsSettled 0 (respond 200 "OK" appleDetails);
     Index.ImageSettled 0 (Return appleChart)]
    (Index.mount cache).

Definition teslaChart : jsstring := lit "file:///data/cache/TSLA.jpg".

(** TSLA is selected while the first load is in flight, and its image
    download succeeds. *)
Definition teslaImageArrived : Index.World :=
  Index.run cache [Index.Select Index.TSLA; Index.ImageSettled 1 (Return teslaChart)] (Index.mount cache).

(** The first load, of AAPL, is still in flight when GOOG is selected. *)
Definition googleSelected : Index.World := Index.step cache (Index.Select Index.GOOG) (Index.mount cache).

(** [{candidates: [{content: {parts: [{text: t}]}}]}] for any [t]. *)
Definition document (t : Json) : Json :=
  JObject
    [(lit "candidates",
      JArray
        [JObject
           [(lit "content",
             JObject [(lit "parts", JArray [JObject [(lit "text", t)]])])]])].

Definition answered (t : Json) : Response Json :=
  {| status := 200; statusText := lit "OK"; json := Return (document t) |}.

(** The first load of the company screen, nothing settled yet. *)
Definition firstLoad : Index.Load :=
  {| Index.company := Index.AAPL; Index.details := Index.pending;
     Index.image := Index.pending; Index.all := Index.pending |}.

Definition appleResponse : Response Index.CompanyDetails :=
  {| status := 200; statusText := lit "OK"; json := Return appleDetails |}.

Definition serverError : Response Index.CompanyDetails :=
  {| status := 500; statusText := lit "Internal Server Error";
     json := Return appleDetails |}.

(** The load of TSLA as it stands in [teslaImageArrived]. *)
Definition teslaLoad : Index.Load :=
  {| Index.company := Index.TSLA; Index.details := Index.pending;
     Index.image := Index.fulfilled; Index.all := Index.pending |}.

(** The first load has failed on its details fetch; its image download is
    still pending. *)
Definition detailsFailed : Index.World :=
  Index.step cache (Index.DetailsSettled 0 (Return serverError))
    (Index.mount cache).

End Sample.

(** * Properties of the chat session *)

Module ExploreSpec.
Import JS Explore.

Lemma nonEmpty_spec (s : jsstring) : nonEmpty s = true <-> s <> [].
Proof.
  destruct s; simpl; split; intros H; easy.
Qed.

Lemma earlyReturn_false (st : ChatState) :
  earlyReturn st = false <->
  trim (inputText st) <> [] /\ isLoading st = false.
Proof.
  unfold earlyReturn.
  rewrite orb_false_iff, negb_false_iff, nonEmpty_spec.
  reflexivity.
Qed.

Lemma earlyReturn_true (st : ChatState) :
  earlyReturn st = true <->
  trim (inputText st) = [] \/ isLoading st = true.
Proof.
  unfold earlyReturn.
  rewrite orb_true_iff, negb_true_iff.
  destruct (trim (inputText st)); simpl; split; intros [H | H];
    auto; discriminate.
Qed.

Lemma apology_nonEmpty (r : jsstring) : apology r <> [].
Proof. unfold apology. discriminate. Qed.

Section WithEngine.

Variable engine : Engine.

Lemma readOnly_ret {A} (a : A) : readOnly (ret a).
Proof. intros st. reflexivity. Qed.

Lemma readOnly_throw {A} (e : Thrown) : readOnly (@throw ChatState A e).
Proof. intros st. reflexivity. Qed.

Lemma readOnly_await {A} (c : Completion A) : readOnly (await c).
Proof. intros st. reflexivity. Qed.

Lemma readOnly_throwIf (cond : bool) (e : Thrown) : readOnly (throwIf cond e).
Proof. intros st. destruct cond; reflexivity. Qed.

Lemma readOnly_bind {A B} (c : Eff ChatState A) (k : A -> Eff ChatState B) :
  readOnly c -> (forall a, readOnly (k a)) -> readOnly (bind c k).
Proof.
  intros Hc Hk st. unfold bind.
  specialize (Hc st). destruct (c st) as [[a | e] st']; simpl in Hc; subst st'.
  - apply Hk.
  - reflexivity.
Qed.

Lemma readOnly_get (v : Value) (k : PropertyKey) : readOnly (get engine v k).
Proof. intros st. destruct v as [[]|]; reflexivity. Qed.

Create HintDb eff.
#[local] Hint Resolve readOnly_ret readOnly_throw readOnly_await
  readOnly_throwIf readOnly_bind readOnly_get : eff.

Lemma readOnly_optionalText (data : Json) :
  readOnly (optionalText engine data).
Proof. unfold optionalText. auto with eff. Qed.

Lemma readOnly_trimmedText (data : Json) :
  readOnly (trimmedText engine data).
Proof.
  unfold trimmedText.
  do 5 (apply readOnly_bind; [apply readOnly_get | intros ?]).
  apply readOnly_bind; [apply readOnly_get | intros t].
  destruct t as [[]|]; auto with eff.
Qed.

Lemma appendsOrThrows_bind {A} (t3 t4 : N) (c : Eff ChatState A)
  (k : A -> Eff ChatState unit) :
  readOnly c -> (forall a, appendsOrThrows t3 t4 (k a)) ->
  appendsOrThrows t3 t4 (bind c k).
Proof.
  intros Hc Hk st. unfold bind.
  specialize (Hc st). destruct (c st) as [[a | e] st']; simpl in Hc; subst st'.
  - apply Hk.
  - left. eexists. reflexivity.
Qed.

Lemma sendMessage_try_cases (fetched : Completion (Response Json))
  (t3 t4 : N) :
  appendsOrThrows t3 t4 (sendMessage_try engine fetched t3 t4).
Proof.
  unfold sendMessage_try.
  apply appendsOrThrows_bind; [apply readOnly_await | intros response].
  apply appendsOrThrows_bind; [apply readOnly_throwIf | intros _].
  apply appendsOrThrows_bind; [apply readOnly_await | intros data].
  apply appendsOrThrows_bind; [apply readOnly_optionalText | intros t].
  apply appendsOrThrows_bind; [apply readOnly_throwIf | intros _].
  apply appendsOrThrows_bind; [apply readOnly_trimmedText | intros reply].
  intros st. right. exists reply. reflexivity.
Qed.

(** Unfold the monadic code of the [try] block. *)
Ltac expose :=
  cbv beta iota delta
    [sendMessage_try bind await throwIf optionalText get ret throw].

(** On a failed fetch the [try] block throws. *)
Lemma sendMessage_try_fails (fetched : Completion (Response Json))
  (t3 t4 : N) (st : ChatState) :
  FailedFetch fetched ->
  exists e, sendMessage_try engine fetched t3 t4 st = (Throw e, st).
Proof.
  intros [e | response Hok | response data Hok Hjson Htext]; expose.
  - eexists; reflexivity.
  - rewrite Hok. cbv beta iota delta [negb]. eexists; reflexivity.
  - rewrite Hok, Hjson. cbv beta iota delta [negb].
    destruct data; try (eexists; reflexivity);
      unfold candidateText, optionalGet at 6 in Htext; rewrite Htext;
      cbv beta iota delta [truthy negb]; eexists; reflexivity.
Qed.

(** [sendMessage], once its fetch has settled, completes normally, appends
    one message of the bot and clears [isLoading]. *)
Lemma sendMessage_resume_spec (fetched : Completion (Response Json))
  (t3 t4 : N) (st : ChatState) :
  exists m,
    sendMessage_resume engine fetched t3 t4 st =
    (Return tt,
     setIsLoading false
       (setMessages (fun prevMessages => prevMessages ++ [m]) st)) /\
    sender m = bot /\
    (FailedFetch fetched -> exists r, message m = apology r).
Proof.
  destruct (sendMessage_try_cases fetched t3 t4 st) as [[e He] | [reply Hr]].
  all: cbv beta in *.
  - eexists. split; [| split].
    + unfold sendMessage_resume, tryFinally, tryCatch. rewrite He.
      reflexivity.
    + reflexivity.
    + intros _. eexists. reflexivity.
  - eexists. split; [| split].
    + unfold sendMessage_resume, tryFinally, tryCatch. rewrite Hr.
      reflexivity.
    + reflexivity.
    + intros Hf. destruct (sendMessage_try_fails fetched t3 t4 st Hf) as [e He].
      rewrite He in Hr. discriminate.
Qed.

Lemma run_cons (ev : Event) (evs : list Event) (w : World) :
  run engine (ev :: evs) w = run engine evs (step engine ev w).
Proof. reflexivity. Qed.

Lemma run_one (ev : Event) (w : World) :
  run engine [ev] w = step engine ev w.
Proof. reflexivity. Qed.

Lemma run_app (evs evs' : list Event) (w : World) :
  run engine (evs ++ evs') w = run engine evs' (run engine evs w).
Proof. unfold run. apply fold_left_app. Qed.

(** While a request is in flight, typing and further presses of the send
    button change neither the history nor the bookkeeping of the session. *)
Lemma user_events_while_loading (between : list Event) (w : World) :
  isLoading (ui w) = true ->
  Forall isUserEvent between ->
  let w' := run engine between w in
  messages (ui w') = messages (ui w) /\
  isLoading (ui w') = true /\
  outbox w' = outbox w /\
  inFlight w' = inFlight w /\
  unhandled w' = unhandled w.
Proof.
  intros Hl Hall. revert w Hl.
  induction Hall as [| ev between Hev _ IH]; intros w Hl.
  - simpl. auto.
  - simpl. destruct ev as [newText | t1 t2 | ]; [| | destruct Hev].
    + destruct (IH (step engine (ChangeText newText) w) Hl)
        as (Hm & Hl' & Ho & Hi & Hu).
      simpl in *. auto.
    + assert (Hsame : step engine (Send t1 t2) w = w).
      { simpl. unfold sendMessage_call.
        replace (earlyReturn (ui w)) with true; [reflexivity |].
        symmetry. apply earlyReturn_true. auto. }
      rewrite Hsame. apply IH, Hl.
Qed.

(** C6.  [sendMessage] called while [isLoading] is true, or with an
    [inputText] whose trim is empty, is a no-op: the history, [isLoading],
    the input and the list of requests handed to the transport are all what
    they were. *)
Theorem sendMessage_noop (w : World) (t1 t2 : N) :
  isLoading (ui w) = true \/ trim (inputText (ui w)) = [] ->
  step engine (Send t1 t2) w = w.
Proof.
  intros H. simpl. unfold sendMessage_call.
  replace (earlyReturn (ui w)) with true; [reflexivity |].
  symmetry. apply earlyReturn_true. tauto.
Qed.

(** C5.  A submission that passes the guard hands exactly one request to the
    transport.  Its [message] is the trimmed input; its [history] is the
    list of messages that existed before this turn, in order, each reduced
    to its [sender] and [message] (no [id], no [timestamp]); the user
    message appended by this very call is not part of it.  With no prior
    message the [history] is empty. *)
Theorem sendMessage_request (w : World) (t1 t2 : N) :
  trim (inputText (ui w)) <> [] ->
  isLoading (ui w) = false ->
  let w' := step engine (Send t1 t2) w in
  let prior := messages (ui w) in
  outbox w' = outbox w ++
    [{| request_message := trim (inputText (ui w));
        request_history :=
          map (fun m => {| sender := sender m; message := message m;
                           id := None; timestamp := None |}) prior |}] /\
  (exists userMessage,
     messages (ui w') = prior ++ [userMessage] /\
     sender userMessage = user /\
     message userMessage = trim (inputText (ui w))) /\
  (prior = [] ->
   outbox w' = outbox w ++
     [{| request_message := trim (inputText (ui w));
         request_history := [] |}]).
Proof.
  intros Ht Hl. simpl. unfold sendMessage_call.
  replace (earlyReturn (ui w)) with false
    by (symmetry; apply earlyReturn_false; auto).
  simpl. split; [reflexivity | split].
  - eexists. split; [reflexivity | split; reflexivity].
  - intros ->. reflexivity.
Qed.

(** C4.  A submission whose trimmed input is non-empty, made while
    [isLoading] is false, appends exactly two messages to the history: first
    the user's, carrying the trimmed input, then one of the bot (the reply
    or the error text).  Whatever the user does while the request is in
    flight and however the fetch settles, [sendMessage] completes normally
    and leaves [isLoading] false. *)
Theorem sendMessage_appends_two (w : World) (t1 t2 : N)
  (between : list Event) (fetched : Completion (Response Json))
  (t3 t4 : N) :
  trim (inputText (ui w)) <> [] ->
  isLoading (ui w) = false ->
  Forall isUserEvent between ->
  let w' :=
    run engine (Send t1 t2 :: between ++ [FetchSettled fetched t3 t4]) w in
  exists userMessage answer,
    messages (ui w') = messages (ui w) ++ [userMessage; answer] /\
    sender userMessage = user /\
    message userMessage = trim (inputText (ui w)) /\
    sender answer = bot /\
    isLoading (ui w') = false /\
    unhandled w' = unhandled w.
Proof.
  intros Ht Hl Hall w'. subst w'.
  rewrite run_cons, run_app, run_one.
  remember (step engine (Send t1 t2) w) as w1 eqn:Hw1.
  assert (H1 : messages (ui w1) =
               messages (ui w) ++
               [{| sender := user; message := trim (inputText (ui w));
                   id := Some (toString t1); timestamp := Some t2 |}] /\
               isLoading (ui w1) = true /\
               inFlight w1 = S (inFlight w) /\
               unhandled w1 = unhandled w).
  { subst w1. simpl. unfold sendMessage_call.
    replace (earlyReturn (ui w)) with false
      by (symmetry; apply earlyReturn_false; auto).
    simpl. auto. }
  clear Hw1. destruct H1 as (Hm1 & Hl1 & Hi1 & Hu1).
  destruct (user_events_while_loading between w1 Hl1 Hall)
    as (Hm2 & _ & _ & Hi2 & Hu2).
  remember (run engine between w1) as w2 eqn:Hw2. clear Hw2.
  simpl. rewrite Hi2, Hi1.
  destruct (sendMessage_resume_spec fetched t3 t4 (ui w2))
    as (answer & Hres & Hsender & _).
  rewrite Hres. simpl.
  eexists _, answer. rewrite Hm2, Hm1, <- app_assoc. simpl.
  repeat split; try reflexivity; try assumption.
  congruence.
Qed.

(** C7.  When the fetch of a request in flight settles as a network error,
    with a status outside 200-299, or with a document that lacks
    [candidates[0].content.parts[0].text], [sendMessage] appends a message
    of the bot whose text is the non-empty sentence
    "Sorry, I encountered an error: <reason>. Please try again.".  And under
    every outcome of the fetch, failed or not, [sendMessage] completes
    normally: nothing escapes to its caller. *)
Theorem sendMessage_failure_message (w : World)
  (fetched : Completion (Response Json)) (t3 t4 : N) :
  inFlight w <> 0%nat ->
  FailedFetch fetched ->
  let w' := step engine (FetchSettled fetched t3 t4) w in
  (exists errorMessage r,
     messages (ui w') = messages (ui w) ++ [errorMessage] /\
     sender errorMessage = bot /\
     message errorMessage = apology r /\
     message errorMessage <> []) /\
  unhandled w' = unhandled w /\
  (forall anyOutcome st,
     fst (sendMessage_resume engine anyOutcome t3 t4 st) = Return tt) /\
  (forall ev w0, unhandled (step engine ev w0) = unhandled w0).
Proof.
  intros Hin Hfail. simpl.
  destruct (inFlight w) as [| n] eqn:Hn; [congruence |].
  destruct (sendMessage_resume_spec fetched t3 t4 (ui w))
    as (m & Hres & Hsender & Hmsg).
  destruct (Hmsg Hfail) as [r Hr].
  rewrite Hres. simpl.
  split; [| split; [reflexivity | split]].
  - exists m, r. repeat split; auto.
    rewrite Hr. apply apology_nonEmpty.
  - intros anyOutcome st.
    destruct (sendMessage_resume_spec anyOutcome t3 t4 st) as (m' & Hres' & _).
    rewrite Hres'. reflexivity.
  - intros [newText | u1 u2 | o u3 u4] w0; simpl.
    + reflexivity.
    + unfold sendMessage_call. destruct (earlyReturn (ui w0)); reflexivity.
    + destruct (inFlight w0); [reflexivity |].
      destruct (sendMessage_resume_spec o u3 u4 (ui w0)) as (m' & Hres' & _).
      rewrite Hres'. reflexivity.
Qed.

(** C9.  The history of the mounted component is the single welcome
    message, whose sender is the bot.  From then on every event, and so
    every sequence of events, leaves the history as it was or extends it at
    its end: what was appended stays, unchanged and in place. *)
Theorem history_append_only :
  (forall now,
     messages (ui (mount now)) = [welcomeMessage now] /\
     sender (welcomeMessage now) = bot) /\
  (forall ev w, exists appended,
     messages (ui (step engine ev w)) = messages (ui w) ++ appended) /\
  (forall evs w, exists appended,
     messages (ui (run engine evs w)) = messages (ui w) ++ appended).
Proof.
  assert (Hstep : forall ev w, exists appended,
            messages (ui (step engine ev w)) = messages (ui w) ++ appended).
  { intros [newText | t1 t2 | fetched t3 t4] w; simpl.
    - exists []. now rewrite app_nil_r.
    - unfold sendMessage_call. destruct (earlyReturn (ui w)); simpl.
      + exists []. now rewrite app_nil_r.
      + eexists. reflexivity.
    - destruct (inFlight w).
      + exists []. now rewrite app_nil_r.
      + destruct (sendMessage_resume_spec fetched t3 t4 (ui w))
          as (m & Hres & _).
        rewrite Hres. simpl. eexists. reflexivity. }
  split; [| split].
  - intros now. split; reflexivity.
  - exact Hstep.
  - induction evs as [| ev evs IH]; intros w.
    + exists []. simpl. now rewrite app_nil_r.
    + rewrite run_cons.
      destruct (IH (step engine ev w)) as [later Hlater].
      destruct (Hstep ev w) as [first Hfirst].
      exists (first ++ later).
      rewrite Hlater, Hfirst, app_assoc. reflexivity.
Qed.

End WithEngine.

(** *** The theorems at sample inputs *)

Import Sample.

(** The scenario of the specification: "What is AAPL's price?" submitted
    with no prior history, answered by a document whose text is "120.50". *)
Example sendMessage_scenario :
  let w :=
    {| ui := setInputText (lit "What is AAPL's price?") initialState;
       outbox := []; inFlight := 0; unhandled := [] |} in
  let w' := sendMessage hermes 5 6 (respond 200 "OK" (reply (lit "120.50")))
              9 10 w in
  outbox w' =
    [{| request_message := lit "What is AAPL's price?";
        request_history := [] |}] /\
  map (fun m => (sender m, message m)) (messages (ui w')) =
    [(user, lit "What is AAPL's price?"); (bot, lit "120.50")] /\
  isLoading (ui w') = false.
Proof. vm_compute. repeat split. Qed.

Lemma sendMessage_noop_witness :
  (isLoading (ui waiting) = true \/ trim (inputText (ui waiting)) = []) /\
  step hermes (Send 5 6) waiting = waiting.
Proof.
  split.
  - left. reflexivity.
  - apply (sendMessage_noop hermes waiting 5 6). left. reflexivity.
Defined.

Lemma sendMessage_request_witness :
  trim (inputText (ui asking)) <> [] /\
  isLoading (ui asking) = false /\
  outbox (step hermes (Send 5 6) asking) =
  [{| request_message := lit "What is AAPL's price?";
      request_history :=
        [{| sender := bot;
            message := message (welcomeMessage 0);
            id := None; timestamp := None |}] |}].
Proof.
  assert (Ht : trim (inputText (ui asking)) <> [])
    by (vm_compute; discriminate).
  assert (Hl : isLoading (ui asking) = false) by reflexivity.
  split; [exact Ht | split; [exact Hl |]].
  exact (proj1 (sendMessage_request hermes asking 5 6 Ht Hl)).
Defined.

Lemma sendMessage_appends_two_witness :
  let between := [ChangeText (lit "and MSFT?"); Send 7 8] in
  let fetched := respond 200 "OK" (reply (lit " 120.50 ")) in
  let w' :=
    run hermes (Send 5 6 :: between ++ [FetchSettled fetched 9 10]) asking in
  trim (inputText (ui asking)) <> [] /\
  isLoading (ui asking) = false /\
  Forall isUserEvent between /\
  exists userMessage answer,
    messages (ui w') = messages (ui asking) ++ [userMessage; answer] /\
    sender userMessage = user /\
    message userMessage = trim (inputText (ui asking)) /\
    sender answer = bot /\
    isLoading (ui w') = false /\
    unhandled w' = unhandled asking.
Proof.
  intros between fetched w'.
  assert (Ht : trim (inputText (ui asking)) <> [])
    by (vm_compute; discriminate).
  assert (Hl : isLoading (ui asking) = false) by reflexivity.
  assert (Hb : Forall isUserEvent between) by (repeat constructor).
  split; [exact Ht | split; [exact Hl | split; [exact Hb |]]].
  exact (sendMessage_appends_two hermes asking 5 6 between fetched 9 10
           Ht Hl Hb).
Defined.

Lemma sendMessage_failure_message_witness :
  inFlight waiting <> 0%nat /\
  FailedFetch (respond 200 "OK" (JObject [(lit "candidates", JArray [])])) /\
  exists errorMessage r,
    messages
      (ui (step hermes
             (FetchSettled
                (respond 200 "OK" (JObject [(lit "candidates", JArray [])]))
                9 10)
             waiting)) =
    messages (ui waiting) ++ [errorMessage] /\
    sender errorMessage = bot /\
    message errorMessage = apology r /\
    message errorMessage <> [].
Proof.
  assert (Hin : inFlight waiting <> 0%nat) by (vm_compute; discriminate).
  assert (Hfail :
            FailedFetch
              (respond 200 "OK" (JObject [(lit "candidates", JArray [])]))).
  { eapply MissingText; reflexivity. }
  split; [exact Hin | split; [exact Hfail |]].
  exact (proj1 (sendMessage_failure_message hermes waiting _ 9 10 Hin Hfail)).
Defined.

End ExploreSpec.

(** * Properties of the company loader *)

Module IndexSpec.
Import JS Index.

Lemma sameCompany_spec (a b : Company) : sameCompany a b = true <-> a = b.
Proof.
  destruct a, b; vm_compute; split; intros H;
    first [reflexivity | discriminate].
Qed.

Lemma sameCompany_refl (a : Company) : sameCompany a a = true.
Proof. now apply sameCompany_spec. Qed.

Lemma sameCompany_neq (a b : Company) : a <> b -> sameCompany a b = false.
Proof.
  intros Hne. destruct (sameCompany a b) eqn:E; [| reflexivity].
  now apply sameCompany_spec in E.
Qed.

Section WithDevice.

Variable cacheDirectory : jsstring.

(** [loadCompanyData] after a rejection of [Promise.all]: the [catch] and
    [finally] blocks. *)
Lemma loadCompanyData_resume_rejected (e : Thrown) (w : World) :
  app (snd (loadCompanyData_resume (Throw e) w)) =
  setIsLoading false (setError (Some (errorMessage e)) (app w)).
Proof. reflexivity. Qed.

(** [loadCompanyData] after [Promise.all] fulfilled: the [finally] block. *)
Lemma loadCompanyData_resume_fulfilled (w : World) :
  app (snd (loadCompanyData_resume (Return tt) w)) =
  setIsLoading false (app w).
Proof. reflexivity. Qed.

(** Settling [Promise.all] never touches the selection or the two data
    cells. *)
Lemma promiseAll_data (i : nat) (l : Load) (r : Completion unit)
  (w : World) :
  let w' := promiseAll i l r w in
  selectedCompany (app w') = selectedCompany (app w) /\
  companyDetails (app w') = companyDetails (app w) /\
  companyImage (app w') = companyImage (app w).
Proof.
  unfold promiseAll.
  destruct (all l), r, (details l), (image l); simpl; auto.
Qed.

(** C10.  The cells of the component start with [isLoading] true, no
    details, no image and no error, the selection being the first entry of
    [COMPANIES], so the first render already shows the spinner.  The effect
    that follows this render starts the first load and leaves these cells as
    they are; that load has both requests issued and nothing settled. *)
Theorem initial_state_is_loading :
  let st := initialState in
  let w := mount cacheDirectory in
  (isLoading st = true /\ companyDetails st = None /\
   companyImage st = None /\ error st = None /\
   nth_error COMPANIES 0 = Some (selectedCompany st) /\
   render st = LoadingSpinner) /\
  app w = st /\
  loads w =
    [{| company := selectedCompany st; details := pending;
        image := pending; all := pending |}] /\
  transport w = requestsFor cacheDirectory (selectedCompany st).
Proof. simpl. repeat split. Qed.

(** C1, as the code has it.  When a load fails, that is when one of its two
    sub-fetches rejects while its [Promise.all] is pending, [error] becomes
    the failure reason ([errorMessage] of the rejection) and [isLoading]
    becomes false.  The details and the image cell are not cleared: each
    holds what it held before the failure, and the selection is unchanged.
    For a details response with a status outside 200-299 the reason is the
    non-empty text "Failed to fetch company details: <statusText>". *)
Theorem load_failure (w : World) (i : nat) (l : Load) (ev : Event)
  (e : Thrown) :
  loads w !! i = Some l ->
  all l = pending ->
  Rejects ev i l e ->
  let w' := step cacheDirectory ev w in
  error (app w') = Some (errorMessage e) /\
  isLoading (app w') = false /\
  companyDetails (app w') = companyDetails (app w) /\
  companyImage (app w') = companyImage (app w) /\
  selectedCompany (app w') = selectedCompany (app w) /\
  (forall response,
     ev = DetailsSettled i (Return response) ->
     ok response = false ->
     errorMessage e =
       lit "Failed to fetch company details: " ++ statusText response /\
     errorMessage e <> []).
Proof.
  intros Hl Hall Hrej.
  assert (Hstate :
    app (step cacheDirectory ev w) =
    setIsLoading false (setError (Some (errorMessage e)) (app w))).
  { destruct Hrej as [i l e Hp | i l response Hp Hok
                      | i l response e Hp Hok Hjson | i l e Hp];
      destruct l as [c dst ist al]; simpl in Hall, Hp; (subst dst || subst ist);
      subst al;
      cbv beta iota delta [step]; rewrite Hl;
      cbv beta iota delta
        [details image fetchCompanyDetails_resume fetchCompanyImage_resume
         bind await throwIf];
      rewrite ?Hok, ?Hjson; reflexivity. }
  simpl. rewrite Hstate. simpl.
  do 5 (split; [reflexivity |]).
  intros response Hev Hok. subst ev.
  inversion Hrej; subst; try congruence.
  split; [reflexivity | discriminate].
Qed.

(** C2, as the code has it.  A sub-fetch that completes successfully writes
    its payload into the state whatever the selection is by then: the
    handlers never compare the company of their load with the current
    [selectedCompany].  So when the load of A is superseded by a selection
    of B, the selection stays B and A's details and image are applied all
    the same. *)
Theorem superseded_load_is_applied (w : World) (i : nat) (l : Load) :
  loads w !! i = Some l ->
  (forall response d,
     details l = pending ->
     ok response = true ->
     json response = Return d ->
     let w' := step cacheDirectory (DetailsSettled i (Return response)) w in
     selectedCompany (app w') = selectedCompany (app w) /\
     companyDetails (app w') = Some d) /\
  (forall uri,
     image l = pending ->
     let w' := step cacheDirectory (ImageSettled i (Return uri)) w in
     selectedCompany (app w') = selectedCompany (app w) /\
     companyImage (app w') = Some uri).
Proof.
  intros Hl. split.
  - intros response d Hp Hok Hjson.
    cbv beta iota zeta delta [step]. rewrite Hl, Hp.
    cbv beta iota delta [fetchCompanyDetails_resume bind await throwIf].
    rewrite Hok, Hjson. cbv beta iota delta [negb ret modify].
    match goal with
    | |- context [promiseAll ?j ?l' ?r ?w1] =>
        destruct (promiseAll_data j l' r w1) as (Hs & Hd & _)
    end.
    rewrite Hs, Hd. split; reflexivity.
  - intros uri Hp.
    cbv beta iota zeta delta [step]. rewrite Hl, Hp.
    cbv beta iota delta [fetchCompanyImage_resume bind await modify].
    match goal with
    | |- context [promiseAll ?j ?l' ?r ?w1] =>
        destruct (promiseAll_data j l' r w1) as (Hs & _ & Hi)
    end.
    rewrite Hs, Hi. split; reflexivity.
Qed.

(** C3, as the code has it.  Selecting a company other than the current one
    at once makes it the selection, sets [isLoading] and clears [error]: in
    the state right after the selection the view is the spinner.  The
    details and the image cell are not reset: in that state they hold what
    they held before the selection.  The statement is about that state only,
    not about the states that follow while the load runs. *)
Theorem select_other_company (c : Company) (w : World) :
  c <> selectedCompany (app w) ->
  let w' := select cacheDirectory c w in
  selectedCompany (app w') = c /\
  isLoading (app w') = true /\
  error (app w') = None /\
  render (app w') = LoadingSpinner /\
  companyDetails (app w') = companyDetails (app w) /\
  companyImage (app w') = companyImage (app w).
Proof.
  intros Hne. unfold select, step, useEffect_selectedCompany.
  cbn [app onApp handleCompanySelect selectedCompany setSelectedCompany
       setIsDropdownVisible].
  rewrite sameCompany_neq by congruence.
  simpl. repeat split.
Qed.

(** C8, as the code has it.  The load is an effect keyed on
    [selectedCompany].  Selecting the company that is already selected
    closes the dropdown and nothing else: no load is started and no request
    reaches the transport.  Selecting any other company starts a full load:
    both requests are issued for it, whatever was loaded or downloaded
    before. *)
Theorem select_requests (c : Company) (w : World) :
  let w' := select cacheDirectory c w in
  (c = selectedCompany (app w) ->
   transport w' = transport w /\
   loads w' = loads w /\
   app w' = setIsDropdownVisible false (app w)) /\
  (c <> selectedCompany (app w) ->
   transport w' = transport w ++ requestsFor cacheDirectory c /\
   loads w' = loads w ++
     [{| company := c; details := pending; image := pending;
         all := pending |}]).
Proof.
  unfold select, step, useEffect_selectedCompany.
  cbn [app onApp handleCompanySelect selectedCompany setSelectedCompany
       setIsDropdownVisible].
  split.
  - intros ->. rewrite sameCompany_refl.
    destruct w as [[sel det img dd ld er] ls tr al]. simpl. repeat split.
  - intros Hne. rewrite sameCompany_neq by congruence.
    simpl. split; reflexivity.
Qed.

End WithDevice.

(** *** The loader at sample inputs *)

Import Sample.

(** C1 fails as stated.  After [select(TSLA)] the image download succeeds
    and then the details endpoint answers 500: the load has failed, [error]
    is set and [isLoading] is false, yet the image cell holds the downloaded
    file.  And when the download itself rejects with an [Error] whose
    message is empty, [error] is the empty string. *)
Lemma failed_load_keeps_image :
  let failed :=
    step cache
      (DetailsSettled 1 (respond 500 "Internal Server Error" appleDetails))
      teslaImageArrived in
  let silent :=
    run cache [Select TSLA; ImageSettled 1 (Throw (ErrorObject []))]
      (mount cache) in
  (selectedCompany (app failed) = TSLA /\
   error (app failed) =
     Some (lit "Failed to fetch company details: Internal Server Error") /\
   isLoading (app failed) = false /\
   companyImage (app failed) = Some teslaChart /\
   ~ (companyDetails (app failed) = None /\
      companyImage (app failed) = None)) /\
  (isLoading (app silent) = false /\ error (app silent) = Some []).
Proof.
  vm_compute. repeat split. intros [_ H]. discriminate H.
Qed.

(** The scenario of the specification: the first load, of AAPL, with both
    sub-fetches succeeding. *)
Example load_scenario :
  selectedCompany (app appleLoaded) = AAPL /\
  companyDetails (app appleLoaded) = Some appleDetails /\
  companyImage (app appleLoaded) = Some appleChart /\
  isLoading (app appleLoaded) = false /\
  error (app appleLoaded) = None.
Proof. vm_compute. repeat split. Qed.

Lemma load_failure_witness :
  let ev :=
    DetailsSettled 1 (respond 500 "Internal Server Error" appleDetails) in
  let l :=
    {| company := TSLA; details := pending; image := fulfilled;
       all := pending |} in
  let e :=
    ErrorObject
      (lit "Failed to fetch company details: Internal Server Error") in
  let w' := step cache ev teslaImageArrived in
  loads teslaImageArrived !! 1%nat = Some l /\
  all l = pending /\
  Rejects ev 1 l e /\
  error (app w') = Some (errorMessage e) /\
  isLoading (app w') = false /\
  companyDetails (app w') = companyDetails (app teslaImageArrived) /\
  companyImage (app w') = companyImage (app teslaImageArrived).
Proof.
  intros ev l e w'.
  assert (Hl : loads teslaImageArrived !! 1%nat = Some l) by reflexivity.
  assert (Hall : all l = pending) by reflexivity.
  assert (Hrej : Rejects ev 1 l e).
  { apply (DetailsBadStatus 1 l
             {| status := 500; statusText := lit "Internal Server Error";
                json := Return appleDetails |}); reflexivity. }
  split; [exact Hl | split; [exact Hall | split; [exact Hrej |]]].
  destruct (load_failure cache teslaImageArrived 1 l ev e Hl Hall Hrej)
    as (He & Hld & Hd & Hi & _).
  repeat split; assumption.
Defined.

(** C2 fails as stated.  GOOG is selected while the load of AAPL is in
    flight; then the two fetches of the AAPL load succeed.  The selection is
    still GOOG, but the details and the image of AAPL have been written into
    the state, and since the AAPL load also cleared [isLoading] the view
    shows them. *)
Lemma stale_payload_is_written :
  let w' :=
    run cache
      [DetailsSettled 0 (respond 200 "OK" appleDetails);
       ImageSettled 0 (Return appleChart)]
      googleSelected in
  option_map company (loads googleSelected !! 0%nat) = Some AAPL /\
  selectedCompany (app googleSelected) = GOOG /\
  companyDetails (app googleSelected) = None /\
  companyImage (app googleSelected) = None /\
  selectedCompany (app w') = GOOG /\
  companyDetails (app w') = Some appleDetails /\
  companyImage (app w') = Some appleChart /\
  render (app w') = Content (Some appleDetails) (Some appleChart).
Proof. vm_compute. repeat split. Qed.

Lemma superseded_load_is_applied_witness :
  let l :=
    {| company := AAPL; details := pending; image := pending;
       all := pending |} in
  let response :=
    {| status := 200; statusText := lit "OK"; json := Return appleDetails |} in
  let w' := step cache (DetailsSettled 0 (Return response)) googleSelected in
  loads googleSelected !! 0%nat = Some l /\
  details l = pending /\
  ok response = true /\
  json response = Return appleDetails /\
  selectedCompany (app w') = selectedCompany (app googleSelected) /\
  companyDetails (app w') = Some appleDetails.
Proof.
  intros l response w'.
  assert (Hl : loads googleSelected !! 0%nat = Some l) by reflexivity.
  do 4 (split; [reflexivity |]).
  exact (proj1 (superseded_load_is_applied cache googleSelected 0 l Hl)
           response appleDetails eq_refl eq_refl eq_refl).
Defined.

(** C3 fails as stated.  With AAPL loaded, selecting GOOG leaves the details
    and the image of AAPL in the state; and selecting AAPL again leaves
    [isLoading] false. *)
Lemma select_keeps_previous_data :
  let other := select cache GOOG appleLoaded in
  let same := select cache AAPL appleLoaded in
  (selectedCompany (app other) = GOOG /\
   isLoading (app other) = true /\
   companyDetails (app other) = Some appleDetails /\
   companyImage (app other) = Some appleChart) /\
  (selectedCompany (app appleLoaded) = AAPL /\
   isLoading (app same) = false).
Proof. vm_compute. repeat split. Qed.

Lemma select_other_company_witness :
  let w' := select cache GOOG appleLoaded in
  GOOG <> selectedCompany (app appleLoaded) /\
  selectedCompany (app w') = GOOG /\
  isLoading (app w') = true /\
  error (app w') = None /\
  render (app w') = LoadingSpinner /\
  companyDetails (app w') = companyDetails (app appleLoaded) /\
  companyImage (app w') = companyImage (app appleLoaded).
Proof.
  intros w'.
  assert (Hne : GOOG <> selectedCompany (app appleLoaded))
    by (vm_compute; discriminate).
  split; [exact Hne |].
  exact (select_other_company cache GOOG appleLoaded Hne).
Defined.

(** C8 fails as stated.  With AAPL loaded and selected, selecting AAPL again
    issues no request: the transport has seen the two requests of the first
    load and nothing more, and no load is in flight. *)
Lemma reselect_issues_no_request :
  let w' := select cache AAPL appleLoaded in
  selectedCompany (app appleLoaded) = AAPL /\
  transport appleLoaded = requestsFor cache AAPL /\
  transport w' = transport appleLoaded /\
  length (transport w') = 2%nat /\
  loads w' = loads appleLoaded /\
  isLoading (app w') = false.
Proof. vm_compute. repeat split. Qed.

Lemma select_requests_witness :
  let same := select cache AAPL appleLoaded in
  let other := select cache MSFT appleLoaded in
  AAPL = selectedCompany (app appleLoaded) /\
  MSFT <> selectedCompany (app appleLoaded) /\
  transport same = transport appleLoaded /\
  transport other = transport appleLoaded ++ requestsFor cache MSFT.
Proof.
  intros same other.
  assert (He : AAPL = selectedCompany (app appleLoaded)) by reflexivity.
  assert (Hne : MSFT <> selectedCompany (app appleLoaded))
    by (vm_compute; discriminate).
  split; [exact He | split; [exact Hne | split]].
  - exact (proj1 (proj1 (select_requests cache AAPL appleLoaded) He)).
  - exact (proj1 (proj2 (select_requests cache MSFT appleLoaded) Hne)).
Defined.

End IndexSpec.

(** * Further properties of the chat session *)

Module ExploreMore.
Import JS Explore.

(** ** [trim] *)

Lemma trimStart_startsClean (s : jsstring) : startsClean (trimStart s).
Proof.
  induction s as [| c r IH]; simpl; [exact I |].
  destruct (isWhiteSpace c) eqn:E; [exact IH | exact E].
Qed.

Lemma trimStart_clean (s : jsstring) : startsClean s -> trimStart s = s.
Proof. destruct s as [| c r]; simpl; [reflexivity | now intros ->]. Qed.

Lemma trimStart_snoc (s : jsstring) (c : N) :
  isWhiteSpace c = false -> trimStart (s ++ [c]) = trimStart s ++ [c].
Proof.
  intros Hc. induction s as [| d r IH]; simpl.
  - now rewrite Hc.
  - destruct (isWhiteSpace d); [exact IH | reflexivity].
Qed.

Lemma trimStart_nil (s : jsstring) :
  trimStart s = [] <-> forallb isWhiteSpace s = true.
Proof.
  induction s as [| c r IH]; simpl; [easy |].
  destruct (isWhiteSpace c); simpl; [exact IH | easy].
Qed.

(** The result of [trim] neither begins nor ends with white space. *)
Lemma trim_startsClean (s : jsstring) :
  startsClean (trim s) /\ startsClean (rev (trim s)).
Proof.
  unfold trim, trimEnd. rewrite rev_involutive.
  split; [| apply trimStart_startsClean].
  pose proof (trimStart_startsClean s) as Hs.
  destruct (trimStart s) as [| c r]; [exact I |].
  simpl in Hs. simpl rev. rewrite trimStart_snoc by exact Hs.
  rewrite rev_app_distr. exact Hs.
Qed.

Lemma trim_clean (s : jsstring) :
  startsClean s -> startsClean (rev s) -> trim s = s.
Proof.
  intros H1 H2. unfold trim, trimEnd.
  rewrite (trimStart_clean s H1), (trimStart_clean (rev s) H2).
  apply rev_involutive.
Qed.

Lemma trim_idempotent (s : jsstring) : trim (trim s) = trim s.
Proof. destruct (trim_startsClean s). now apply trim_clean. Qed.

Lemma forallb_rev (f : N -> bool) (s : jsstring) :
  forallb f (rev s) = forallb f s.
Proof.
  induction s as [| c r IH]; simpl; [reflexivity |].
  rewrite forallb_app, IH. simpl. rewrite andb_true_r. apply andb_comm.
Qed.

Lemma trim_nil (s : jsstring) :
  trim s = [] <-> forallb isWhiteSpace s = true.
Proof.
  rewrite <- trimStart_nil. unfold trim, trimEnd.
  pose proof (trimStart_startsClean s) as Hs.
  destruct (trimStart s) as [| c r]; [easy |].
  simpl in Hs. simpl rev. rewrite trimStart_snoc by exact Hs.
  rewrite rev_app_distr. simpl. easy.
Qed.

Lemma toString_nonEmpty (n : N) : exists c r, toString n = c :: r.
Proof.
  unfold toString.
  assert (Hn : N.to_uint n <> Decimal.Nil).
  { destruct n as [| p]; simpl; [discriminate |].
    apply DecimalPos.Unsigned.to_uint_nonnil. }
  destruct (N.to_uint n); try contradiction; simpl; eauto.
Qed.

Lemma turns_snoc (n : nat) : turns n ++ [user; bot] = turns (S n).
Proof.
  unfold turns. induction n as [| n IH]; [reflexivity |].
  change (concat (repeat [user; bot] (S n)))
    with ([user; bot] ++ concat (repeat [user; bot] n)).
  rewrite <- app_assoc, IH. reflexivity.
Qed.

Lemma requestsFrom_snoc (before l : list ChatMessage) (m : ChatMessage) :
  requestsFrom before (l ++ [m]) =
  requestsFrom before l ++
  match sender m with
  | user =>
      [{| request_message := message m;
          request_history := map historyEntry (before ++ l) |}]
  | bot => []
  end.
Proof.
  revert before. induction l as [| x l IH]; intros before; simpl.
  - rewrite !app_nil_r. reflexivity.
  - rewrite IH, <- !app_assoc. reflexivity.
Qed.

Section WithEngine.

Variable engine : Engine.

(** ** [sendMessage] after the fetch, outcome by outcome *)

Lemma resume_caught (fetched : Completion (Response Json)) (t3 t4 : N)
  (st : ChatState) (e : Thrown) :
  sendMessage_try engine fetched t3 t4 st = (Throw e, st) ->
  sendMessage_resume engine fetched t3 t4 st =
  (Return tt,
   setIsLoading false
     (setMessages
        (fun prevMessages =>
           prevMessages ++ [answer (apology (reason e)) t3 t4])
        st)).
Proof.
  intros H. unfold sendMessage_resume, tryFinally, tryCatch.
  rewrite H. reflexivity.
Qed.

Lemma resume_returned (fetched : Completion (Response Json)) (t3 t4 : N)
  (st : ChatState) (body : jsstring) :
  sendMessage_try engine fetched t3 t4 st =
  (Return tt,
   setMessages (fun prevMessages => prevMessages ++ [answer body t3 t4]) st) ->
  sendMessage_resume engine fetched t3 t4 st =
  (Return tt,
   setIsLoading false
     (setMessages (fun prevMessages => prevMessages ++ [answer body t3 t4])
        st)).
Proof.
  intros H. unfold sendMessage_resume, tryFinally, tryCatch.
  rewrite H. reflexivity.
Qed.

Lemma resume_answer (fetched : Completion (Response Json)) (t3 t4 : N)
  (st : ChatState) :
  exists body,
    sendMessage_resume engine fetched t3 t4 st =
    (Return tt,
     setIsLoading false
       (setMessages (fun prevMessages => prevMessages ++ [answer body t3 t4])
          st)).
Proof.
  destruct (ExploreSpec.sendMessage_try_cases engine fetched t3 t4 st)
    as [[e He] | [body Hb]].
  - eexists. apply resume_caught, He.
  - exists body. apply resume_returned, Hb.
Qed.

(** The step that settles a fetch, once the result of [sendMessage] from
    there on is known. *)
Lemma settled_with (w : World) (fetched : Completion (Response Json))
  (t3 t4 : N) (body : jsstring) :
  inFlight w <> 0%nat ->
  sendMessage_resume engine fetched t3 t4 (ui w) =
  (Return tt,
   setIsLoading false
     (setMessages (fun prevMessages => prevMessages ++ [answer body t3 t4])
        (ui w))) ->
  let w' := step engine (FetchSettled fetched t3 t4) w in
  messages (ui w') = messages (ui w) ++ [answer body t3 t4] /\
  isLoading (ui w') = false /\
  inputText (ui w') = inputText (ui w) /\
  outbox w' = outbox w /\
  unhandled w' = unhandled w.
Proof.
  intros Hin Hres. simpl.
  destruct (inFlight w); [congruence |].
  rewrite Hres. simpl. auto.
Qed.

Lemma settled_caught (w : World) (fetched : Completion (Response Json))
  (t3 t4 : N) (e : Thrown) :
  inFlight w <> 0%nat ->
  sendMessage_try engine fetched t3 t4 (ui w) = (Throw e, ui w) ->
  let w' := step engine (FetchSettled fetched t3 t4) w in
  messages (ui w') =
    messages (ui w) ++ [answer (apology (reason e)) t3 t4] /\
  isLoading (ui w') = false.
Proof.
  intros Hin Htry.
  destruct (settled_with w fetched t3 t4 _ Hin
              (resume_caught fetched t3 t4 (ui w) e Htry))
    as (Hm & Hl & _).
  cbv zeta. split; assumption.
Qed.

(** In a document other than [null] the optional chain of the [try] block
    finds what [candidateText] finds. *)
Lemma optionalText_found (data : Json) (st : ChatState) :
  data <> JNull ->
  optionalText engine data st = (Return (candidateText data), st).
Proof. destruct data; [contradiction | reflexivity ..]. Qed.

Lemma get_found (v : Value) (k : PropertyKey) (x : Json) (st : ChatState) :
  optionalGet v k = Some x ->
  get engine v k st = (Return (Some x), st).
Proof.
  destruct v as [[] |]; simpl; try discriminate; intros ->; reflexivity.
Qed.

(** Where the optional chain finds a value, the plain chain of
    [botMessage] finds the same one, and then calls its [trim]. *)
Lemma trimmedText_found (data : Json) (v : Json) (st : ChatState) :
  candidateText data = Some v ->
  trimmedText engine data st =
  match v with
  | JString s => (Return (trim s), st)
  | JNull =>
      (Throw
         (ErrorObject
            (cannotReadProperty engine (Some v) (Named (lit "trim")))),
       st)
  | _ => (Throw (ErrorObject (notAFunction engine (Some v))), st)
  end.
Proof.
  unfold candidateText. intros H.
  destruct (optionalGet (Some data) candidates) as [c1 |] eqn:E1;
    [| discriminate H].
  destruct (optionalGet (Some c1) (Index 0)) as [c2 |] eqn:E2;
    [| discriminate H].
  destruct (optionalGet (Some c2) content) as [c3 |] eqn:E3;
    [| discriminate H].
  destruct (optionalGet (Some c3) parts) as [c4 |] eqn:E4;
    [| discriminate H].
  destruct (optionalGet (Some c4) (Index 0)) as [c5 |] eqn:E5;
    [| discriminate H].
  unfold trimmedText, bind.
  rewrite (get_found _ _ _ st E1), (get_found _ _ _ st E2),
    (get_found _ _ _ st E3), (get_found _ _ _ st E4),
    (get_found _ _ _ st E5), (get_found _ _ _ st H).
  destruct v; reflexivity.
Qed.

Lemma candidateText_nonnull (data : Json) (v : Json) :
  candidateText data = Some v -> data <> JNull.
Proof. intros H ->. discriminate H. Qed.

(** The [try] block on a response with status 200-299 and a document that
    is not [null], in terms of the text found in the document. *)
Lemma sendMessage_try_document (response : Response Json) (data : Json)
  (t3 t4 : N) (st : ChatState) :
  ok response = true ->
  json response = Return data ->
  data <> JNull ->
  sendMessage_try engine (Return response) t3 t4 st =
  if truthy (candidateText data) then
    match candidateText data with
    | Some (JString s) =>
        (Return tt,
         setMessages
           (fun prevMessages => prevMessages ++ [answer (trim s) t3 t4]) st)
    | v => (Throw (ErrorObject (notAFunction engine v)), st)
    end
  else
    (Throw (ErrorObject (lit "Invalid response format from server")), st).
Proof.
  intros Hok Hjson Hnn.
  unfold sendMessage_try, bind, await, throwIf.
  rewrite Hok, Hjson. cbv beta iota delta [negb ret].
  rewrite (optionalText_found data st Hnn).
  destruct (candidateText data) as [v |] eqn:Hv; [| reflexivity].
  destruct (truthy (Some v)) eqn:Ht; cbv beta iota delta [negb throw ret];
    [| reflexivity].
  rewrite (trimmedText_found data v st Hv).
  destruct v; try reflexivity. discriminate Ht.
Qed.

(** X1.  When the fetch settles with a status in 200-299 and a document
    whose [candidates[0].content.parts[0].text] is a non-empty string,
    [sendMessage] appends one message of the bot whose text is that string
    trimmed, and clears [isLoading]; the input and the requests sent are
    untouched. *)
Theorem reply_is_the_trimmed_text (w : World) (response : Response Json)
  (data : Json) (s : jsstring) (t3 t4 : N) :
  inFlight w <> 0%nat ->
  ok response = true ->
  json response = Return data ->
  candidateText data = Some (JString s) ->
  s <> [] ->
  let w' := step engine (FetchSettled (Return response) t3 t4) w in
  messages (ui w') = messages (ui w) ++ [answer (trim s) t3 t4] /\
  isLoading (ui w') = false /\
  inputText (ui w') = inputText (ui w) /\
  outbox w' = outbox w /\
  unhandled w' = unhandled w.
Proof.
  intros Hin Hok Hjson Htext Hs.
  apply settled_with; [exact Hin |].
  apply resume_returned.
  rewrite (sendMessage_try_document response data t3 t4 (ui w) Hok Hjson
             (candidateText_nonnull data _ Htext)).
  rewrite Htext. simpl. destruct s; [contradiction | reflexivity].
Qed.

(** X2.  The text of a reply is tested before it is trimmed: a text made
    of white space only passes the test, and the message appended for it
    has the empty text. *)
Theorem blank_reply_gives_empty_message (w : World)
  (response : Response Json) (data : Json) (s : jsstring) (t3 t4 : N) :
  inFlight w <> 0%nat ->
  ok response = true ->
  json response = Return data ->
  candidateText data = Some (JString s) ->
  s <> [] ->
  forallb isWhiteSpace s = true ->
  let w' := step engine (FetchSettled (Return response) t3 t4) w in
  messages (ui w') = messages (ui w) ++ [answer [] t3 t4].
Proof.
  intros Hin Hok Hjson Htext Hs Hblank.
  apply trim_nil in Hblank. rewrite <- Hblank.
  apply settled_with; [exact Hin |].
  apply resume_returned.
  rewrite (sendMessage_try_document response data t3 t4 (ui w) Hok Hjson
             (candidateText_nonnull data _ Htext)).
  rewrite Htext. simpl. destruct s; [contradiction | reflexivity].
Qed.

(** X3.  A text that is truthy but not a string (a number other than 0,
    [true], an array, an object) passes the test and then has no [trim] to
    call: the [TypeError] is caught and the bot's message is the apology
    around the engine's message for it. *)
Theorem non_string_text_is_reported (w : World) (response : Response Json)
  (data : Json) (v : Json) (t3 t4 : N) :
  inFlight w <> 0%nat ->
  ok response = true ->
  json response = Return data ->
  candidateText data = Some v ->
  truthy (Some v) = true ->
  (forall s, v <> JString s) ->
  let w' := step engine (FetchSettled (Return response) t3 t4) w in
  messages (ui w') =
    messages (ui w) ++
    [answer (apology (notAFunction engine (Some v))) t3 t4] /\
  isLoading (ui w') = false.
Proof.
  intros Hin Hok Hjson Htext Htruthy Hns.
  apply (settled_caught w (Return response) t3 t4
           (ErrorObject (notAFunction engine (Some v))));
    [exact Hin |].
  rewrite (sendMessage_try_document response data t3 t4 (ui w) Hok Hjson
             (candidateText_nonnull data _ Htext)).
  rewrite Htext, Htruthy.
  destruct v; try reflexivity. now contradiction (Hns s).
Qed.

(** X4.  A response whose status is outside 200-299 is reported with that
    status, in decimal: "HTTP error! status: <status>".  Its body is not
    looked at. *)
Theorem bad_status_is_reported (w : World) (response : Response Json)
  (t3 t4 : N) :
  inFlight w <> 0%nat ->
  ok response = false ->
  let w' := step engine (FetchSettled (Return response) t3 t4) w in
  messages (ui w') =
    messages (ui w) ++
    [answer
       (apology (lit "HTTP error! status: " ++ toString (status response)))
       t3 t4] /\
  isLoading (ui w') = false.
Proof.
  intros Hin Hok.
  apply (settled_caught w (Return response) t3 t4
           (ErrorObject
                (lit "HTTP error! status: " ++ toString (status response))));
    [exact Hin |].
  unfold sendMessage_try, bind, await, throwIf.
  rewrite Hok. reflexivity.
Qed.

(** X5.  In a document other than [null], a text that is missing or falsy
    ([null], [false], 0, the empty string) is reported as
    "Invalid response format from server". *)
Theorem falsy_text_is_invalid_format (w : World) (response : Response Json)
  (data : Json) (t3 t4 : N) :
  inFlight w <> 0%nat ->
  ok response = true ->
  json response = Return data ->
  data <> JNull ->
  truthy (candidateText data) = false ->
  let w' := step engine (FetchSettled (Return response) t3 t4) w in
  messages (ui w') =
    messages (ui w) ++
    [answer (apology (lit "Invalid response format from server")) t3 t4] /\
  isLoading (ui w') = false.
Proof.
  intros Hin Hok Hjson Hnn Hfalsy.
  apply (settled_caught w (Return response) t3 t4
           (ErrorObject (lit "Invalid response format from server")));
    [exact Hin |].
  rewrite (sendMessage_try_document response data t3 t4 (ui w) Hok Hjson
             Hnn).
  rewrite Hfalsy. reflexivity.
Qed.

(** X6.  A rejection of the fetch itself, or of [response.json()] on a
    response with status 200-299, is reported with the message of the
    rejection when it is an [Error], and as "Unknown error" otherwise. *)
Theorem rejection_is_reported (w : World)
  (fetched : Completion (Response Json)) (e : Thrown) (t3 t4 : N) :
  inFlight w <> 0%nat ->
  fetched = Throw e \/
  (exists response,
     fetched = Return response /\ ok response = true /\
     json response = Throw e) ->
  let w' := step engine (FetchSettled fetched t3 t4) w in
  messages (ui w') =
    messages (ui w) ++
    [answer
       (apology
          match e with
          | ErrorObject m => m
          | NotAnError => lit "Unknown error"
          end)
       t3 t4] /\
  isLoading (ui w') = false.
Proof.
  intros Hin Hrej.
  apply (settled_caught w fetched t3 t4 e); [exact Hin |].
  destruct Hrej as [-> | (response & -> & Hok & Hjson)].
  + reflexivity.
  + unfold sendMessage_try, bind, await, throwIf.
    rewrite Hok, Hjson. reflexivity.
Qed.

(** X7.  The document [null] is not reported as an invalid format: reading
    [candidates] of it raises a [TypeError] before the test of the text, and
    the bot's message is the apology around the engine's message. *)
Theorem null_document_is_a_type_error (w : World)
  (response : Response Json) (t3 t4 : N) :
  inFlight w <> 0%nat ->
  ok response = true ->
  json response = Return JNull ->
  let w' := step engine (FetchSettled (Return response) t3 t4) w in
  messages (ui w') =
    messages (ui w) ++
    [answer
       (apology (cannotReadProperty engine (Some JNull) candidates))
       t3 t4] /\
  isLoading (ui w') = false.
Proof.
  intros Hin Hok Hjson.
  apply (settled_caught w (Return response) t3 t4
           (ErrorObject
                (cannotReadProperty engine (Some JNull) candidates)));
    [exact Hin |].
  unfold sendMessage_try, bind, await, throwIf.
  rewrite Hok, Hjson. reflexivity.
Qed.

(** ** The guard of [sendMessage] and the controls in front of it *)

Lemma send_unchanged_iff (w : World) (t1 t2 : N) :
  step engine (Send t1 t2) w = w <-> earlyReturn (ui w) = true.
Proof.
  simpl. unfold sendMessage_call.
  destruct (earlyReturn (ui w)) eqn:E; split; intros H;
    try reflexivity; try discriminate.
  apply ExploreSpec.earlyReturn_false in E. destruct E as [_ El].
  apply (f_equal (fun x => isLoading (ui x))) in H. simpl in H. congruence.
Qed.

(** X8.  The send button is disabled exactly when pressing it would do
    nothing: [disabled] and the early [return] of [sendMessage] test the
    same condition. *)
Theorem send_button_matches_guard (w : World) (t1 t2 : N) :
  sendDisabled (ui w) = true <-> step engine (Send t1 t2) w = w.
Proof.
  rewrite send_unchanged_iff. unfold sendDisabled, earlyReturn.
  rewrite orb_comm. reflexivity.
Qed.

(** X9.  [sendMessage] does nothing exactly when a request is in flight or
    the input is blank, that is empty or made of white space only (spaces,
    tabs, line breaks, no-break spaces and the other ECMAScript white space
    and line terminator characters). *)
Theorem send_ignored_iff_busy_or_blank (w : World) (t1 t2 : N) :
  step engine (Send t1 t2) w = w <->
  isLoading (ui w) = true \/
  forallb isWhiteSpace (inputText (ui w)) = true.
Proof.
  rewrite send_unchanged_iff, ExploreSpec.earlyReturn_true, trim_nil. tauto.
Qed.

(** X10.  Pressing send twice in a row is the same as pressing it once,
    whatever the clock shows at the second press: the first press either
    does nothing or sets [isLoading], which blocks the second. *)
Theorem double_send_is_single_send (w : World) (t1 t2 t1' t2' : N) :
  step engine (Send t1' t2') (step engine (Send t1 t2) w) =
  step engine (Send t1 t2) w.
Proof.
  apply send_unchanged_iff.
  simpl. unfold sendMessage_call.
  destruct (earlyReturn (ui w)) eqn:E; [exact E |].
  unfold earlyReturn. simpl. first [reflexivity | apply orb_true_r].
Qed.

(** ** Invariants of a session *)

Lemma mount_invariant (now : N) : SessionInvariant (mount now).
Proof.
  split; simpl; try reflexivity.
  - exists 0%nat. reflexivity.
  - repeat constructor. discriminate.
  - repeat constructor. vm_compute. eauto.
Qed.

Lemma step_invariant (ev : Event) (w : World) :
  SessionInvariant w -> SessionInvariant (step engine ev w).
Proof.
  intros [Hu Hi Ho [n Hs] Hm Hid].
  destruct ev as [newText | t1 t2 | fetched t3 t4].
  - split; simpl; auto. exists n. exact Hs.
  - simpl. unfold sendMessage_call.
    destruct (earlyReturn (ui w)) eqn:E.
    { split; auto. exists n. exact Hs. }
    apply ExploreSpec.earlyReturn_false in E. destruct E as [Ht Hl].
    rewrite Hl in Hi, Hs.
    split; simpl.
    + exact Hu.
    + now rewrite Hi.
    + rewrite requestsFrom_snoc, Ho. reflexivity.
    + exists n. rewrite map_app, Hs. simpl.
      rewrite app_nil_r. reflexivity.
    + apply Forall_app. split; [exact Hm |].
      repeat constructor; simpl; [exact Ht | apply trim_idempotent].
    + apply Forall_app. split; [exact Hid |].
      repeat constructor. simpl.
      destruct (toString_nonEmpty t1) as (c & r & ->). eauto.
  - simpl. destruct (inFlight w) as [| k] eqn:Ek.
    { split; auto; [congruence | exists n; exact Hs]. }
    destruct (isLoading (ui w)) eqn:Hl; [| discriminate Hi].
    injection Hi as ->.
    destruct (resume_answer fetched t3 t4 (ui w)) as [body Hres].
    rewrite Hres.
    split; simpl.
    + exact Hu.
    + reflexivity.
    + rewrite requestsFrom_snoc, Ho. simpl. now rewrite app_nil_r.
    + exists (S n). rewrite map_app, Hs, <- (turns_snoc n). simpl.
      rewrite app_nil_r, <- app_assoc. reflexivity.
    + apply Forall_app. split; [exact Hm |].
      constructor; [| constructor]. simpl. discriminate.
    + apply Forall_app. split; [exact Hid |].
      repeat constructor. simpl.
      destruct (toString_nonEmpty (t3 + 1)) as (c & r & ->). eauto.
Qed.

Lemma session_invariant (now : N) (evs : list Event) :
  SessionInvariant (run engine evs (mount now)).
Proof.
  generalize (mount_invariant now). generalize (mount now).
  induction evs as [| ev evs IH]; intros w Hw; [exact Hw |].
  apply (IH (step engine ev w)), step_invariant, Hw.
Qed.

(** X11.  In every session at most one request is in flight, and
    [isLoading] tells whether one is; the text input is editable exactly
    while none is.  No rejection of [sendMessage] is ever left unhandled. *)
Theorem one_request_at_a_time (now : N) (evs : list Event) :
  let w := run engine evs (mount now) in
  (inFlight w <= 1)%nat /\
  (isLoading (ui w) = true <-> inFlight w = 1%nat) /\
  (editable (ui w) = true <-> inFlight w = 0%nat) /\
  unhandled w = [].
Proof.
  destruct (session_invariant now evs) as [Hu Hi _ _ _ _].
  cbv zeta. unfold editable. rewrite Hi.
  destruct (isLoading (ui (run engine evs (mount now)))); simpl;
    repeat split; auto; try discriminate; try lia.
Qed.

(** X12.  The history of every session is the welcome message of the bot
    followed by exchanges, each a message of the user and then one of the
    bot, with one more message of the user at the end exactly while a
    request is in flight. *)
Theorem history_alternates (now : N) (evs : list Event) :
  let w := run engine evs (mount now) in
  exists n,
    map sender (messages (ui w)) =
    bot :: turns n ++ (if isLoading (ui w) then [user] else []).
Proof. exact (inv_senders _ (session_invariant now evs)). Qed.

(** X13.  The requests handed to the transport in a session are exactly
    those its history stands for: one per message of the user, in order,
    whose [message] is the text of that message and whose [history] is every
    message before it, welcome message included, each reduced to sender and
    text. *)
Theorem requests_follow_history (now : N) (evs : list Event) :
  let w := run engine evs (mount now) in
  outbox w = requestsFrom [] (messages (ui w)).
Proof. exact (inv_outbox _ (session_invariant now evs)). Qed.

(** X14.  Every message of the user in the history of a session has a text
    that is not empty and is its own trim: it neither begins nor ends with
    white space. *)
Theorem user_messages_are_trimmed (now : N) (evs : list Event) :
  let w := run engine evs (mount now) in
  Forall
    (fun m =>
       sender m = user ->
       message m <> [] /\ trim (message m) = message m /\
       startsClean (message m) /\ startsClean (rev (message m)))
    (messages (ui w)).
Proof.
  cbv zeta.
  eapply Forall_impl; [exact (inv_user _ (session_invariant now evs)) |].
  intros m H Hu. destruct (H Hu) as [Hne Htrim].
  repeat split; try assumption; rewrite <- Htrim; apply trim_startsClean.
Qed.

(** X15.  Every message in the history of a session has a non-empty [id],
    so the key of its row is that [id] and never falls back to the text;
    and the history is never empty, so [scrollToBottom] scrolls whenever
    the list is attached. *)
Theorem keys_are_ids (now : N) (evs : list Event) :
  let w := run engine evs (mount now) in
  Forall (fun m => id m = Some (keyExtractor m) /\ keyExtractor m <> [])
    (messages (ui w)) /\
  scrollToBottom true (ui w) = true.
Proof.
  cbv zeta. split.
  - eapply Forall_impl; [exact (inv_id _ (session_invariant now evs)) |].
    intros m (c & r & H). unfold keyExtractor. rewrite H.
    split; [reflexivity | discriminate].
  - destruct (inv_senders _ (session_invariant now evs)) as [n Hs].
    unfold scrollToBottom.
    destruct (messages (ui (run engine evs (mount now)))); [discriminate |].
    reflexivity.
Qed.

End WithEngine.

(** ** The theorems at sample inputs *)

Import Sample.

Lemma waiting_inFlight : inFlight waiting <> 0%nat.
Proof. vm_compute. discriminate. Defined.

Lemma reply_is_the_trimmed_text_witness :
  let response := answered (JString (lit " 120.50 ")) in
  let w' := step hermes (FetchSettled (Return response) 9 10) waiting in
  inFlight waiting <> 0%nat /\
  ok response = true /\
  json response = Return (document (JString (lit " 120.50 "))) /\
  candidateText (document (JString (lit " 120.50 "))) =
    Some (JString (lit " 120.50 ")) /\
  lit " 120.50 " <> [] /\
  messages (ui w') = messages (ui waiting) ++ [answer (lit "120.50") 9 10] /\
  isLoading (ui w') = false.
Proof.
  intros response w'.
  assert (Hs : lit " 120.50 " <> []) by (vm_compute; discriminate).
  do 4 (split; [first [exact waiting_inFlight | reflexivity] |]).
  split; [exact Hs |].
  destruct (reply_is_the_trimmed_text hermes waiting response _ _ 9 10
              waiting_inFlight eq_refl eq_refl eq_refl Hs)
    as (Hm & Hl & _).
  split; [exact Hm | exact Hl].
Defined.

Lemma blank_reply_gives_empty_message_witness :
  let response := answered (JString (lit "   ")) in
  let w' := step hermes (FetchSettled (Return response) 9 10) waiting in
  inFlight waiting <> 0%nat /\
  ok response = true /\
  json response = Return (document (JString (lit "   "))) /\
  candidateText (document (JString (lit "   "))) =
    Some (JString (lit "   ")) /\
  lit "   " <> [] /\
  forallb isWhiteSpace (lit "   ") = true /\
  messages (ui w') = messages (ui waiting) ++ [answer [] 9 10].
Proof.
  intros response w'.
  assert (Hs : lit "   " <> []) by (vm_compute; discriminate).
  do 4 (split; [first [exact waiting_inFlight | reflexivity] |]).
  split; [exact Hs | split; [reflexivity |]].
  exact (blank_reply_gives_empty_message hermes waiting response _ _ 9 10
           waiting_inFlight eq_refl eq_refl eq_refl Hs eq_refl).
Defined.

Lemma non_string_text_is_reported_witness :
  let response := answered (JNumber 120.5%float) in
  let w' := step hermes (FetchSettled (Return response) 9 10) waiting in
  inFlight waiting <> 0%nat /\
  ok response = true /\
  json response = Return (document (JNumber 120.5%float)) /\
  candidateText (document (JNumber 120.5%float)) =
    Some (JNumber 120.5%float) /\
  truthy (Some (JNumber 120.5%float)) = true /\
  (forall s, JNumber 120.5%float <> JString s) /\
  messages (ui w') =
    messages (ui waiting) ++
    [answer (apology (lit "undefined is not a function")) 9 10] /\
  isLoading (ui w') = false.
Proof.
  intros response w'.
  assert (Hns : forall s, JNumber 120.5%float <> JString s)
    by (intros s; discriminate).
  do 5 (split; [first [exact waiting_inFlight | reflexivity] |]).
  split; [exact Hns |].
  exact (non_string_text_is_reported hermes waiting response _ _ 9 10
           waiting_inFlight eq_refl eq_refl eq_refl eq_refl Hns).
Defined.

Lemma bad_status_is_reported_witness :
  let response :=
    {| status := 503; statusText := lit "Service Unavailable";
       json := Return JNull |} in
  let w' := step hermes (FetchSettled (Return response) 9 10) waiting in
  inFlight waiting <> 0%nat /\
  ok response = false /\
  messages (ui w') =
    messages (ui waiting) ++
    [answer (apology (lit "HTTP error! status: 503")) 9 10] /\
  isLoading (ui w') = false.
Proof.
  intros response w'.
  split; [exact waiting_inFlight | split; [reflexivity |]].
  exact (bad_status_is_reported hermes waiting response 9 10
           waiting_inFlight eq_refl).
Defined.

Lemma falsy_text_is_invalid_format_witness :
  let data := JObject [(lit "candidates", JArray [])] in
  let response :=
    {| status := 200; statusText := lit "OK"; json := Return data |} in
  let w' := step hermes (FetchSettled (Return response) 9 10) waiting in
  inFlight waiting <> 0%nat /\
  ok response = true /\
  json response = Return data /\
  data <> JNull /\
  truthy (candidateText data) = false /\
  messages (ui w') =
    messages (ui waiting) ++
    [answer (apology (lit "Invalid response format from server")) 9 10] /\
  isLoading (ui w') = false.
Proof.
  intros data response w'.
  assert (Hnn : data <> JNull) by discriminate.
  do 3 (split; [first [exact waiting_inFlight | reflexivity] |]).
  split; [exact Hnn | split; [reflexivity |]].
  exact (falsy_text_is_invalid_format hermes waiting response data 9 10
           waiting_inFlight eq_refl eq_refl Hnn eq_refl).
Defined.

Lemma rejection_is_reported_witness :
  let e := ErrorObject (lit "Network request failed") in
  let fetched : Completion (Response Json) := Throw e in
  let w' := step hermes (FetchSettled fetched 9 10) waiting in
  inFlight waiting <> 0%nat /\
  (fetched = Throw e \/
   exists response,
     fetched = Return response /\ ok response = true /\
     json response = Throw e) /\
  messages (ui w') =
    messages (ui waiting) ++
    [answer (apology (lit "Network request failed")) 9 10] /\
  isLoading (ui w') = false.
Proof.
  intros e fetched w'.
  assert (Hrej : fetched = Throw e \/
                 exists response,
                   fetched = Return response /\ ok response = true /\
                   json response = Throw e) by (left; reflexivity).
  split; [exact waiting_inFlight | split; [exact Hrej |]].
  exact (rejection_is_reported hermes waiting fetched e 9 10
           waiting_inFlight Hrej).
Defined.

Lemma null_document_is_a_type_error_witness :
  let response :=
    {| status := 200; statusText := lit "OK"; json := Return JNull |} in
  let w' := step hermes (FetchSettled (Return response) 9 10) waiting in
  inFlight waiting <> 0%nat /\
  ok response = true /\
  json response = Return JNull /\
  messages (ui w') =
    messages (ui waiting) ++
    [answer (apology (lit "Cannot read property of null")) 9 10] /\
  isLoading (ui w') = false.
Proof.
  intros response w'.
  do 3 (split; [first [exact waiting_inFlight | reflexivity] |]).
  exact (null_document_is_a_type_error hermes waiting response 9 10
           waiting_inFlight eq_refl eq_refl).
Defined.

End ExploreMore.

(** * Further properties of the company loader *)

Module IndexMore.
Import JS Index.

Lemma jsstring_eqb_refl (a : jsstring) : jsstring_eqb a a = true.
Proof.
  induction a as [| x a IH]; simpl; [reflexivity |].
  now rewrite N.eqb_refl, IH.
Qed.

Lemma symbol_inj (a b : Company) : symbol a = symbol b -> a = b.
Proof.
  intros H. apply IndexSpec.sameCompany_spec.
  unfold sameCompany. rewrite H. apply jsstring_eqb_refl.
Qed.

Lemma map_insert_same {A B} (f : A -> B) (l : list A) (i : nat) (x y : A) :
  l !! i = Some x -> f y = f x -> map f (<[i := y]> l) = map f l.
Proof.
  revert i. induction l as [| a l IH]; intros [| i] Hl Hf; simpl in *;
    try discriminate.
  - injection Hl as ->. now rewrite Hf.
  - now rewrite (IH i Hl Hf).
Qed.

(** X16.  The dropdown shows the ten companies under pairwise distinct
    keys, and whatever the selection is, exactly one row is highlighted:
    the row of the selected company. *)
Theorem dropdown_highlights_the_selection (selected : Company) :
  List.NoDup dropdownKeys /\
  map fst (dropdownRows selected) = COMPANIES /\
  List.filter (fun row => snd row) (dropdownRows selected) =
    [(selected, true)].
Proof.
  split; [| split].
  - unfold dropdownKeys, COMPANIES. simpl.
    repeat (constructor; [simpl; intuition discriminate |]).
    constructor.
  - reflexivity.
  - destruct selected; reflexivity.
Qed.

Section WithDevice.

Variable cacheDirectory : jsstring.

(** X17.  Requests of different companies never coincide: the URL of the
    details request, the URL of the image request and the name of the cache
    file each determine the company.  In particular two companies never
    share a cache file. *)
Theorem requests_identify_the_company (c1 c2 : Company)
  (u1 i1 f1 u2 i2 f2 : jsstring) :
  requestsFor cacheDirectory c1 = [Fetch u1; DownloadAsync i1 f1] ->
  requestsFor cacheDirectory c2 = [Fetch u2; DownloadAsync i2 f2] ->
  u1 = u2 \/ i1 = i2 \/ f1 = f2 ->
  c1 = c2.
Proof.
  unfold requestsFor. intros H1 H2 Heq.
  assert (u1 = API_BASE_URL ++ lit "/stockDetails/" ++ symbol c1 /\
          i1 = API_BASE_URL ++ lit "/stockGraph/" ++ symbol c1 /\
          f1 = cacheDirectory ++ symbol c1 ++ lit ".jpg")
    as (-> & -> & ->) by (repeat split; congruence).
  assert (u2 = API_BASE_URL ++ lit "/stockDetails/" ++ symbol c2 /\
          i2 = API_BASE_URL ++ lit "/stockGraph/" ++ symbol c2 /\
          f2 = cacheDirectory ++ symbol c2 ++ lit ".jpg")
    as (-> & -> & ->) by (repeat split; congruence).
  clear H1 H2. apply symbol_inj.
  destruct Heq as [H | [H | H]].
  - now apply app_inv_head in H; apply app_inv_head in H.
  - now apply app_inv_head in H; apply app_inv_head in H.
  - apply app_inv_head in H. now apply app_inv_tail in H.
Qed.

(** ** What one event does to the log of requests and loads *)

Lemma promiseAll_log (i : nat) (l : Load) (r : Completion unit) (w : World) :
  exists l',
    company l' = company l /\
    loads (promiseAll i l r w) = <[i := l']> (loads w) /\
    transport (promiseAll i l r w) = transport w.
Proof.
  unfold promiseAll.
  destruct (all l), r, (details l), (image l); simpl;
    eexists; (split; [| split; reflexivity]); reflexivity.
Qed.

Lemma step_log (ev : Event) (w : World) :
  let started :=
    match ev with
    | Select c =>
        if sameCompany (selectedCompany (app w)) c then [] else [c]
    | _ => []
    end in
  companies (step cacheDirectory ev w) = companies w ++ started /\
  transport (step cacheDirectory ev w) =
    transport w ++ concat (map (requestsFor cacheDirectory) started) /\
  selectedCompany (app (step cacheDirectory ev w)) =
    match ev with
    | Select c => c
    | _ => selectedCompany (app w)
    end.
Proof.
  assert (Hsame : forall w', companies w' = companies w ->
            transport w' = transport w ->
            selectedCompany (app w') = selectedCompany (app w) ->
            companies w' = companies w ++ [] /\
            transport w' = transport w ++ [] /\
            selectedCompany (app w') = selectedCompany (app w)).
  { intros w' -> -> ->. now rewrite !app_nil_r. }
  destruct ev as [c | | | i fetched | i downloaded]; cbv zeta.
  - unfold step, useEffect_selectedCompany.
    cbn [app onApp handleCompanySelect selectedCompany setSelectedCompany
         setIsDropdownVisible].
    destruct (sameCompany (selectedCompany (app w)) c); simpl.
    + rewrite !app_nil_r. repeat split; reflexivity.
    + unfold companies. simpl. rewrite map_app. repeat split; reflexivity.
  - apply Hsame; reflexivity.
  - apply Hsame; reflexivity.
  - simpl. destruct (loads w !! i) as [l |] eqn:Hl;
      [| apply Hsame; reflexivity].
    destruct (details l) eqn:Hd; try (apply Hsame; reflexivity).
    destruct (fetchCompanyDetails_resume fetched w) as [r w1] eqn:Hf.
    assert (Hw1 : loads w1 = loads w /\ transport w1 = transport w /\
                  selectedCompany (app w1) = selectedCompany (app w)).
    { revert Hf. unfold fetchCompanyDetails_resume, bind, await, throwIf.
      destruct fetched as [response | e]; [| intros [= <- <-]; auto].
      destruct (ok response); simpl; [| intros [= <- <-]; auto].
      destruct (json response); intros [= <- <-]; auto. }
    destruct Hw1 as (Hl1 & Ht1 & Hs1).
    match goal with
    | |- context [promiseAll ?j ?l2 ?r2 ?w2] =>
        destruct (promiseAll_log j l2 r2 w2) as (l' & Hc & Hlo & Htr);
        destruct (IndexSpec.promiseAll_data j l2 r2 w2) as (Hsel & _)
    end.
    apply Hsame.
    + unfold companies. rewrite Hlo, Hl1.
      apply (map_insert_same company (loads w) i l l' Hl). exact Hc.
    + congruence.
    + congruence.
  - simpl. destruct (loads w !! i) as [l |] eqn:Hl;
      [| apply Hsame; reflexivity].
    destruct (image l) eqn:Hd; try (apply Hsame; reflexivity).
    destruct (fetchCompanyImage_resume downloaded w) as [r w1] eqn:Hf.
    assert (Hw1 : loads w1 = loads w /\ transport w1 = transport w /\
                  selectedCompany (app w1) = selectedCompany (app w)).
    { revert Hf. unfold fetchCompanyImage_resume, bind, await.
      destruct downloaded as [uri | e]; intros [= <- <-]; auto. }
    destruct Hw1 as (Hl1 & Ht1 & Hs1).
    match goal with
    | |- context [promiseAll ?j ?l2 ?r2 ?w2] =>
        destruct (promiseAll_log j l2 r2 w2) as (l' & Hc & Hlo & Htr);
        destruct (IndexSpec.promiseAll_data j l2 r2 w2) as (Hsel & _)
    end.
    apply Hsame.
    + unfold companies. rewrite Hlo, Hl1.
      apply (map_insert_same company (loads w) i l l' Hl). exact Hc.
    + congruence.
    + congruence.
Qed.

Lemma loader_invariant (evs : list Event) :
  let w := run cacheDirectory evs (mount cacheDirectory) in
  transport w = concat (map (requestsFor cacheDirectory) (companies w)) /\
  last (companies w) = Some (selectedCompany (app w)).
Proof.
  cbv zeta.
  assert (H0 : transport (mount cacheDirectory) =
               concat (map (requestsFor cacheDirectory)
                         (companies (mount cacheDirectory))) /\
               last (companies (mount cacheDirectory)) =
               Some (selectedCompany (app (mount cacheDirectory))))
    by (split; reflexivity).
  revert H0. generalize (mount cacheDirectory).
  induction evs as [| ev evs IH]; intros w Hw; [exact Hw |].
  apply (IH (step cacheDirectory ev w)).
  destruct Hw as [Ht Hlast].
  destruct (step_log ev w) as (Hc & Htr & Hsel).
  rewrite Hc, Htr, Hsel, map_app, concat_app, <- Ht.
  split; [reflexivity |].
  destruct ev as [c | | | |]; rewrite ?app_nil_r; try exact Hlast.
  destruct (sameCompany (selectedCompany (app w)) c) eqn:E.
  - rewrite app_nil_r, Hlast. f_equal.
    now apply IndexSpec.sameCompany_spec.
  - apply last_snoc.
Qed.

(** X18.  Whatever happens to the mounted screen, the requests it has
    issued are exactly the pairs of requests of the loads it has started,
    in order: a details fetch and an image download for the company of each
    load, and nothing else. *)
Theorem requests_come_in_pairs (evs : list Event) :
  let w := run cacheDirectory evs (mount cacheDirectory) in
  transport w =
    concat (map (fun l => requestsFor cacheDirectory (company l)) (loads w)) /\
  length (transport w) = (2 * length (loads w))%nat.
Proof.
  cbv zeta. destruct (loader_invariant evs) as [Ht _].
  unfold companies in Ht. rewrite map_map in Ht.
  split; [exact Ht |].
  rewrite Ht. generalize (loads (run cacheDirectory evs (mount cacheDirectory))).
  intros ls. induction ls as [| l ls IH]; simpl; [reflexivity |].
  rewrite IH. lia.
Qed.

(** X19.  Whatever happens to the mounted screen, the load started last is
    the load of the company currently selected: every selection has had its
    own load started, and no load was started for anything else since. *)
Theorem latest_load_is_for_the_selection (evs : list Event) :
  let w := run cacheDirectory evs (mount cacheDirectory) in
  option_map company (last (loads w)) = Some (selectedCompany (app w)).
Proof.
  cbv zeta. destruct (loader_invariant evs) as [_ Hl].
  unfold companies in Hl. rewrite <- Hl.
  generalize (loads (run cacheDirectory evs (mount cacheDirectory))).
  intros ls. induction ls as [| l [| l' ls] IH]; try reflexivity.
  exact IH.
Qed.

(** ** Single settlements *)

(** The whole step of a failing load. *)
Lemma failure_step (w : World) (i : nat) (l : Load) (ev : Event)
  (e : Thrown) :
  loads w !! i = Some l ->
  all l = pending ->
  Rejects ev i l e ->
  let w' := step cacheDirectory ev w in
  app w' = setIsLoading false (setError (Some (errorMessage e)) (app w)) /\
  alerts w' = alerts w ++ [(lit "Error", errorMessage e)] /\
  transport w' = transport w.
Proof.
  intros Hl Hall Hrej. cbv zeta.
  destruct Hrej as [i l e Hp | i l response Hp Hok
                    | i l response e Hp Hok Hjson | i l e Hp];
    destruct l as [c dst ist al]; simpl in Hall, Hp; (subst dst || subst ist);
    subst al;
    cbv beta iota delta [step]; rewrite Hl;
    cbv beta iota delta
      [details image fetchCompanyDetails_resume fetchCompanyImage_resume
       bind await throwIf];
    rewrite ?Hok, ?Hjson; repeat split; reflexivity.
Qed.

(** The step of a details fetch that succeeds, up to [Promise.all]. *)
Lemma details_success_step (w : World) (i : nat) (l : Load)
  (response : Response CompanyDetails) (d : CompanyDetails) :
  loads w !! i = Some l ->
  details l = pending ->
  ok response = true ->
  json response = Return d ->
  step cacheDirectory (DetailsSettled i (Return response)) w =
  promiseAll i
    {| company := company l; details := fulfilled; image := image l;
       all := all l |}
    (Return tt) (onApp (setCompanyDetails (Some d)) w).
Proof.
  intros Hl Hp Hok Hjson.
  cbv beta iota zeta delta [step]. rewrite Hl, Hp.
  cbv beta iota delta [fetchCompanyDetails_resume bind await throwIf].
  rewrite Hok, Hjson. reflexivity.
Qed.

(** The step of an image download that succeeds, up to [Promise.all]. *)
Lemma image_success_step (w : World) (i : nat) (l : Load) (uri : jsstring) :
  loads w !! i = Some l ->
  image l = pending ->
  step cacheDirectory (ImageSettled i (Return uri)) w =
  promiseAll i
    {| company := company l; details := details l; image := fulfilled;
       all := all l |}
    (Return tt) (onApp (setCompanyImage (Some uri)) w).
Proof.
  intros Hl Hp.
  cbv beta iota zeta delta [step]. rewrite Hl, Hp. reflexivity.
Qed.

(** X20.  A failed load raises exactly one alert, titled "Error", whose
    text is the text stored in [error]; it sends nothing to the transport. *)
Theorem failed_load_alerts_once (w : World) (i : nat) (l : Load)
  (ev : Event) (e : Thrown) :
  loads w !! i = Some l ->
  all l = pending ->
  Rejects ev i l e ->
  let w' := step cacheDirectory ev w in
  alerts w' = alerts w ++ [(lit "Error", errorMessage e)] /\
  error (app w') = Some (errorMessage e) /\
  transport w' = transport w.
Proof.
  intros Hl Hall Hrej.
  destruct (failure_step w i l ev e Hl Hall Hrej) as (Ha & Hal & Ht).
  cbv zeta. rewrite Ha. auto.
Qed.

(** X21.  What the screen shows right after a failed load depends on the
    failure reason being empty or not.  A non-empty reason is shown as the
    error text, and nothing else.  An empty reason, as of an [Error] without
    message, counts as no error: the screen shows the details and the image
    that are in the state, without any sign of the failure. *)
Theorem view_after_failure (w : World) (i : nat) (l : Load) (ev : Event)
  (e : Thrown) :
  loads w !! i = Some l ->
  all l = pending ->
  Rejects ev i l e ->
  let w' := step cacheDirectory ev w in
  render (app w') =
  match errorMessage e with
  | [] => Content (companyDetails (app w)) (truthyString (companyImage (app w)))
  | c :: r => ErrorText (c :: r)
  end.
Proof.
  intros Hl Hall Hrej.
  destruct (failure_step w i l ev e Hl Hall Hrej) as (Ha & _).
  cbv zeta. rewrite Ha. unfold render. simpl.
  destruct (errorMessage e); reflexivity.
Qed.

(** X22.  While one sub-fetch of a load is still pending, the success of
    the other one writes its payload and nothing else: [isLoading] and
    [error] keep their values and no alert is raised, so the spinner stays
    until both have settled. *)
Theorem first_success_keeps_loading (w : World) (i : nat) (l : Load)
  (response : Response CompanyDetails) (d : CompanyDetails)
  (uri : jsstring) :
  loads w !! i = Some l ->
  details l = pending ->
  image l = pending ->
  ok response = true ->
  json response = Return d ->
  let afterDetails :=
    step cacheDirectory (DetailsSettled i (Return response)) w in
  let afterImage := step cacheDirectory (ImageSettled i (Return uri)) w in
  app afterDetails = setCompanyDetails (Some d) (app w) /\
  alerts afterDetails = alerts w /\
  app afterImage = setCompanyImage (Some uri) (app w) /\
  alerts afterImage = alerts w.
Proof.
  intros Hl Hd Hi Hok Hjson. cbv zeta.
  rewrite (details_success_step w i l response d Hl Hd Hok Hjson).
  rewrite (image_success_step w i l uri Hl Hi).
  unfold promiseAll. simpl. rewrite Hd, Hi.
  destruct (all l); simpl; auto.
Qed.

(** X23.  When both sub-fetches of a load succeed, the order in which they
    settle does not matter: either way the state ends with the details and
    the image of the load, [isLoading] false, [error] as it was and no
    alert, and the load is recorded as fulfilled. *)
Theorem successes_commute (w : World) (i : nat) (l : Load)
  (response : Response CompanyDetails) (d : CompanyDetails)
  (uri : jsstring) :
  loads w !! i = Some l ->
  details l = pending ->
  image l = pending ->
  all l = pending ->
  ok response = true ->
  json response = Return d ->
  let detailsFirst :=
    run cacheDirectory
      [DetailsSettled i (Return response); ImageSettled i (Return uri)] w in
  let imageFirst :=
    run cacheDirectory
      [ImageSettled i (Return uri); DetailsSettled i (Return response)] w in
  detailsFirst = imageFirst /\
  app detailsFirst =
    setIsLoading false
      (setCompanyImage (Some uri) (setCompanyDetails (Some d) (app w))) /\
  loads detailsFirst =
    <[i := {| company := company l; details := fulfilled;
              image := fulfilled; all := fulfilled |}]> (loads w) /\
  alerts detailsFirst = alerts w /\
  transport detailsFirst = transport w.
Proof.
  intros Hl Hd Hi Ha Hok Hjson.
  assert (Hlen : (i < length (loads w))%nat) by (eapply lookup_lt_Some, Hl).
  destruct l as [c dst ist al]. simpl in Hd, Hi, Ha. subst dst ist al.
  assert (H1 :
    run cacheDirectory
      [DetailsSettled i (Return response); ImageSettled i (Return uri)] w =
    {| app := setIsLoading false
                (setCompanyImage (Some uri)
                   (setCompanyDetails (Some d) (app w)));
       loads := <[i := {| company := c; details := fulfilled;
                          image := fulfilled; all := fulfilled |}]> (loads w);
       transport := transport w;
       alerts := alerts w |}).
  { unfold run. cbn [fold_left].
    rewrite (details_success_step w i _ response d Hl eq_refl Hok Hjson).
    unfold promiseAll at 1. cbn [all details image company].
    erewrite image_success_step;
      [| cbn [setLoad loads onApp]; apply list_lookup_insert_eq, Hlen
       | reflexivity].
    unfold promiseAll. cbn. unfold onApp, setLoad.
    cbn [app loads transport alerts].
    rewrite list_insert_insert_eq. reflexivity. }
  assert (H2 :
    run cacheDirectory
      [ImageSettled i (Return uri); DetailsSettled i (Return response)] w =
    {| app := setIsLoading false
                (setCompanyImage (Some uri)
                   (setCompanyDetails (Some d) (app w)));
       loads := <[i := {| company := c; details := fulfilled;
                          image := fulfilled; all := fulfilled |}]> (loads w);
       transport := transport w;
       alerts := alerts w |}).
  { unfold run. cbn [fold_left].
    rewrite (image_success_step w i _ uri Hl eq_refl).
    unfold promiseAll at 1. cbn [all details image company].
    erewrite details_success_step;
      [| cbn [setLoad loads onApp]; apply list_lookup_insert_eq, Hlen
       | reflexivity | exact Hok | exact Hjson].
    unfold promiseAll. cbn. unfold onApp, setLoad.
    cbn [app loads transport alerts].
    rewrite list_insert_insert_eq. reflexivity. }
  cbv zeta. rewrite H1, H2. simpl. repeat split.
Qed.

(** X24.  [Promise.all] settles once.  After a load has failed or
    succeeded, whatever its remaining sub-fetch does changes neither
    [isLoading] nor [error] and raises no alert; a second failure of the
    same load goes unreported. *)
Theorem settled_load_stays_settled (w : World) (i : nat) (l : Load)
  (fetched : Completion (Response CompanyDetails))
  (downloaded : Completion jsstring) :
  loads w !! i = Some l ->
  all l <> pending ->
  let afterDetails := step cacheDirectory (DetailsSettled i fetched) w in
  let afterImage := step cacheDirectory (ImageSettled i downloaded) w in
  (isLoading (app afterDetails) = isLoading (app w) /\
   error (app afterDetails) = error (app w) /\
   alerts afterDetails = alerts w) /\
  (isLoading (app afterImage) = isLoading (app w) /\
   error (app afterImage) = error (app w) /\
   alerts afterImage = alerts w).
Proof.
  intros Hl Hall. cbv zeta. split.
  - cbv beta iota zeta delta [step]. rewrite Hl.
    destruct (details l); auto.
    unfold fetchCompanyDetails_resume, bind, await, throwIf, promiseAll.
    cbn [all].
    destruct fetched as [response | e]; [destruct (ok response) |];
      [destruct (json response) | |]; simpl;
      destruct (all l); try contradiction; simpl; auto.
  - cbv beta iota zeta delta [step]. rewrite Hl.
    destruct (image l); auto.
    unfold fetchCompanyImage_resume, bind, await, promiseAll.
    cbn [all].
    destruct downloaded as [uri | e]; simpl;
      destruct (all l); try contradiction; simpl; auto.
Qed.

End WithDevice.

(** ** The theorems at sample inputs *)

Import Sample.

Lemma requests_identify_the_company_witness :
  requestsFor cache AAPL =
    [Fetch (lit "https://hcibackend.onrender.com/stockDetails/AAPL");
     DownloadAsync (lit "https://hcibackend.onrender.com/stockGraph/AAPL")
       (lit "file:///data/cache/AAPL.jpg")] /\
  (lit "file:///data/cache/AAPL.jpg" = lit "file:///data/cache/AAPL.jpg") /\
  AAPL = AAPL.
Proof.
  assert (H : requestsFor cache AAPL =
              [Fetch (lit "https://hcibackend.onrender.com/stockDetails/AAPL");
               DownloadAsync
                 (lit "https://hcibackend.onrender.com/stockGraph/AAPL")
                 (lit "file:///data/cache/AAPL.jpg")]) by reflexivity.
  split; [exact H | split; [reflexivity |]].
  exact (requests_identify_the_company cache AAPL AAPL _ _ _ _ _ _ H H
           (or_intror (or_intror eq_refl))).
Defined.

Lemma teslaLoad_rejects :
  Rejects (DetailsSettled 1 (Return serverError)) 1 teslaLoad
    (ErrorObject
       (lit "Failed to fetch company details: Internal Server Error")).
Proof. apply (DetailsBadStatus 1 teslaLoad serverError); reflexivity. Defined.

Lemma failed_load_alerts_once_witness :
  let e :=
    ErrorObject
      (lit "Failed to fetch company details: Internal Server Error") in
  let w' :=
    step cache (DetailsSettled 1 (Return serverError)) teslaImageArrived in
  loads teslaImageArrived !! 1%nat = Some teslaLoad /\
  all teslaLoad = pending /\
  Rejects (DetailsSettled 1 (Return serverError)) 1 teslaLoad e /\
  alerts w' = alerts teslaImageArrived ++ [(lit "Error", errorMessage e)] /\
  error (app w') = Some (errorMessage e) /\
  transport w' = transport teslaImageArrived.
Proof.
  intros e w'.
  do 2 (split; [reflexivity |]). split; [exact teslaLoad_rejects |].
  exact (failed_load_alerts_once cache teslaImageArrived 1 teslaLoad _ e
           eq_refl eq_refl teslaLoad_rejects).
Defined.

Lemma view_after_failure_witness :
  let w' :=
    step cache (DetailsSettled 1 (Return serverError)) teslaImageArrived in
  loads teslaImageArrived !! 1%nat = Some teslaLoad /\
  all teslaLoad = pending /\
  render (app w') =
    ErrorText (lit "Failed to fetch company details: Internal Server Error").
Proof.
  intros w'.
  do 2 (split; [reflexivity |]).
  exact (view_after_failure cache teslaImageArrived 1 teslaLoad _ _
           eq_refl eq_refl teslaLoad_rejects).
Defined.

Lemma first_success_keeps_loading_witness :
  let w := mount cache in
  let afterDetails := step cache (DetailsSettled 0 (Return appleResponse)) w in
  let afterImage := step cache (ImageSettled 0 (Return appleChart)) w in
  loads w !! 0%nat = Some firstLoad /\
  details firstLoad = pending /\
  image firstLoad = pending /\
  ok appleResponse = true /\
  json appleResponse = Return appleDetails /\
  app afterDetails = setCompanyDetails (Some appleDetails) (app w) /\
  alerts afterDetails = alerts w /\
  app afterImage = setCompanyImage (Some appleChart) (app w) /\
  alerts afterImage = alerts w.
Proof.
  intros w afterDetails afterImage.
  do 5 (split; [reflexivity |]).
  exact (first_success_keeps_loading cache w 0 firstLoad appleResponse
           appleDetails appleChart eq_refl eq_refl eq_refl eq_refl eq_refl).
Defined.

Lemma successes_commute_witness :
  let w := mount cache in
  let detailsFirst :=
    run cache
      [DetailsSettled 0 (Return appleResponse);
       ImageSettled 0 (Return appleChart)] w in
  let imageFirst :=
    run cache
      [ImageSettled 0 (Return appleChart);
       DetailsSettled 0 (Return appleResponse)] w in
  loads w !! 0%nat = Some firstLoad /\
  details firstLoad = pending /\
  image firstLoad = pending /\
  all firstLoad = pending /\
  ok appleResponse = true /\
  json appleResponse = Return appleDetails /\
  detailsFirst = imageFirst.
Proof.
  intros w detailsFirst imageFirst.
  do 6 (split; [reflexivity |]).
  exact (proj1 (successes_commute cache w 0 firstLoad appleResponse
                  appleDetails appleChart eq_refl eq_refl eq_refl eq_refl
                  eq_refl eq_refl)).
Defined.

Lemma settled_load_stays_settled_witness :
  let l :=
    {| company := AAPL; details := rejected; image := pending;
       all := rejected |} in
  let afterImage :=
    step cache
      (ImageSettled 0 (Throw (ErrorObject (lit "Unable to download file"))))
      detailsFailed in
  loads detailsFailed !! 0%nat = Some l /\
  all l <> pending /\
  isLoading (app afterImage) = isLoading (app detailsFailed) /\
  error (app afterImage) = error (app detailsFailed) /\
  alerts afterImage = alerts detailsFailed.
Proof.
  intros l afterImage.
  assert (Hall : all l <> pending) by discriminate.
  split; [reflexivity | split; [exact Hall |]].
  exact (proj2 (settled_load_stays_settled cache detailsFailed 0 l
                  (Throw NotAnError)
                  (Throw (ErrorObject (lit "Unable to download file")))
                  eq_refl Hall)).
Defined.

End IndexMore.
